(** * gh-cascade: dependency extraction and rebase orchestration

    A shallow embedding of [main.go].  Go strings are byte strings
    ([string] of the Standard Library), Go [int] is the 64-bit signed
    integer carried in [Z], a pointer that may be nil is an [option], and
    the external tools ([git], [gh]) are an oracle that answers each command
    from the history of what ran before it.  A run threads an event log and
    may end in a Go panic. *)

From Stdlib Require Import ZArith List String Ascii Bool Lia.
Import ListNotations.
Local Open Scope string_scope.
Local Open Scope Z_scope.

(** ** Go strings *)

Module strings.

Definition byte (c : ascii) : Z := Z.of_N (N_of_ascii c).

(** [strings.Contains(s, substr)]. *)
Definition Contains (s substr : string) : bool :=
  match index 0 substr s with
  | Some _ => true
  | None => false
  end.

(** The slice expression [s[:hi]]: out of range it panics, which is [None]
    here. *)
Definition sliceTo (s : string) (hi : nat) : option string :=
  if (hi <=? String.length s)%nat then Some (substring 0 hi s) else None.

(** ASCII lower-casing of one byte and of a string; bytes outside [A-Z]
    are left alone. *)
Definition lowerByte (c : ascii) : ascii :=
  let n := byte c in
  if (65 <=? n) && (n <=? 90) then ascii_of_N (Z.to_N (n + 32)) else c.

Fixpoint ToLowerASCII (s : string) : string :=
  match s with
  | EmptyString => EmptyString
  | String c s' => String (lowerByte c) (ToLowerASCII s')
  end.

Definition isDigit (c : ascii) : bool :=
  let n := byte c in (48 <=? n) && (n <=? 57).

Fixpoint allBytes (p : ascii -> bool) (s : string) : bool :=
  match s with
  | EmptyString => true
  | String c s' => p c && allBytes p s'
  end.

Definition allDigits : string -> bool := allBytes isDigit.

Definition startsWith (p : ascii -> bool) (s : string) : bool :=
  match s with
  | EmptyString => false
  | String c _ => p c
  end.

Definition startsWithDigit : string -> bool := startsWith isDigit.

Fixpoint hasByte (p : ascii -> bool) (s : string) : bool :=
  match s with
  | EmptyString => false
  | String c s' => p c || hasByte p s'
  end.

End strings.

(** ** Errors and panics *)

(** What [strconv] reports inside a [*NumError]. *)
Inductive NumErrKind := ErrSyntax | ErrRange.

(** Go [error] values as this program builds them.  [ErrNoDependOn] is the
    package-level sentinel, compared by identity in [errors.Is]; [NumError]
    is [*strconv.NumError]; [External] is an error handed back by a
    collaborator ([exec], [safeexec], [gh], [json]) with its text;
    [Errorf msg] is the value of a [fmt.Errorf] call whose formatted text
    is [msg], and [Wrapf msg w] of one whose format has a [%w] for [w]. *)
Inductive error :=
| ErrNoDependOn
| NumError (Func Num : string) (Err : NumErrKind)
| External (msg : string)
| Errorf (msg : string)
| Wrapf (msg : string) (wrapped : error).

Inductive panicValue :=
| PanicError (e : error)
| PanicNilDereference
| PanicSliceBounds (hi len : nat).

Inductive result (A : Type) :=
| Ret (a : A)
| Panic (p : panicValue).
Arguments Ret {A} a.
Arguments Panic {A} p.

(** ** strconv *)

Module strconv.

Definition IntSize : Z := 64.
Definition maxUint64 : Z := 2 ^ 64 - 1.
Definition MaxInt : Z := 2 ^ 63 - 1.

Definition digitVal (c : ascii) : option Z :=
  if strings.isDigit c then Some (strings.byte c - 48) else None.

(** The digit loop of [ParseUint(s, 10, 64)], on an accumulator [n] that
    is a [uint64]: the two overflow tests are the library's. *)
Fixpoint parseUintLoop (s : string) (n : Z) : Z * option NumErrKind :=
  match s with
  | EmptyString => (n, None)
  | String c s' =>
      match digitVal c with
      | None => (0, Some ErrSyntax)
      | Some d =>
          let cutoff := maxUint64 / 10 + 1 in
          if cutoff <=? n then (maxUint64, Some ErrRange)
          else
            let n10 := n * 10 in
            let n1 := (n10 + d) mod 2 ^ 64 in
            if (n1 <? n10) || (maxUint64 <? n1) then (maxUint64, Some ErrRange)
            else parseUintLoop s' n1
      end
  end.

Definition ParseUint (s : string) : Z * option NumErrKind :=
  match s with
  | EmptyString => (0, Some ErrSyntax)
  | _ => parseUintLoop s 0
  end.

(** [ParseInt(s, 10, 0)]. *)
Definition ParseInt (s : string) : Z * option NumErrKind :=
  match s with
  | EmptyString => (0, Some ErrSyntax)
  | String c s' =>
      let neg := Ascii.eqb c "-"%char in
      let body := if Ascii.eqb c "+"%char || neg then s' else s in
      match ParseUint body with
      | (_, Some ErrSyntax) => (0, Some ErrSyntax)
      | (un, _) =>
          let cutoff := 2 ^ (IntSize - 1) in
          if negb neg && (cutoff <=? un) then (cutoff - 1, Some ErrRange)
          else if neg && (cutoff <? un) then (- cutoff, Some ErrRange)
          else (if neg then - un else un, None)
      end
  end.

(** [Atoi(s)]: the fast path for short inputs computes what [ParseInt]
    computes, so one definition stands for both; the error is a
    [*NumError] naming [Atoi] and the input. *)
Definition Atoi (s : string) : Z * option error :=
  match ParseInt s with
  | (i, None) => (i, None)
  | (i, Some k) => (i, Some (NumError "Atoi" s k))
  end.

(** Decimal digits of a non-negative number, most significant first. *)
Fixpoint digitsOfPos (fuel : nat) (n : Z) (acc : string) : string :=
  match fuel with
  | O => acc
  | S fuel' =>
      let acc' := String (ascii_of_N (Z.to_N (48 + n mod 10))) acc in
      if n <? 10 then acc' else digitsOfPos fuel' (n / 10) acc'
  end.

(** [Itoa(i)]; a 64-bit value has at most 20 digits. *)
Definition Itoa (i : Z) : string :=
  if i <? 0 then String "-"%char (digitsOfPos 20 (- i) EmptyString)
  else digitsOfPos 20 i EmptyString.

(** The number a string of decimal digits denotes. *)
Fixpoint decimalFrom (n : Z) (s : string) : Z :=
  match s with
  | EmptyString => n
  | String c s' => decimalFrom (n * 10 + (strings.byte c - 48)) s'
  end.

Definition decimal (s : string) : Z := decimalFrom 0 s.

End strconv.

(** ** regexp *)

Module regexp.

(** The syntax the pattern of this program needs.  Repetition is over a
    one-byte class, which is all the pattern repeats. *)
Inductive Regexp :=
| EmptyMatch
| Class (p : ascii -> bool)
| Concat (r1 r2 : Regexp)
| Alternate (r1 r2 : Regexp)
| Quest (r : Regexp)
| Plus (p : ascii -> bool)
| Capture (r : Regexp).

(** Where a match attempt stands: the input left and the text of group 1. *)
Definition Cont := string -> option string -> option (string * option string).

(** Greedy repetition of a class: the longest run first, then shorter
    ones when what follows fails. *)
Fixpoint star (p : ascii -> bool) (s : string)
         (k : string -> option (string * option string))
  : option (string * option string) :=
  match s with
  | String c s' =>
      if p c then
        match star p s' k with
        | Some r => Some r
        | None => k s
        end
      else k s
  | EmptyString => k s
  end.

(** A backtracking matcher with the leftmost-first preference order of
    Go's [regexp]: the first alternative first, an optional part taken
    before it is skipped, repetition greedy. *)
Fixpoint exec (r : Regexp) (s : string) (cap : option string) (k : Cont)
  : option (string * option string) :=
  match r with
  | EmptyMatch => k s cap
  | Class p =>
      match s with
      | String c s' => if p c then k s' cap else None
      | EmptyString => None
      end
  | Concat r1 r2 => exec r1 s cap (fun s1 c1 => exec r2 s1 c1 k)
  | Alternate r1 r2 =>
      match exec r1 s cap k with
      | Some x => Some x
      | None => exec r2 s cap k
      end
  | Quest r1 =>
      match exec r1 s cap k with
      | Some x => Some x
      | None => k s cap
      end
  | Plus p =>
      match s with
      | String c s' => if p c then star p s' (fun s1 => k s1 cap) else None
      | EmptyString => None
      end
  | Capture r1 =>
      exec r1 s cap
           (fun s1 _ =>
              k s1 (Some (substring 0 (String.length s - String.length s1) s)))
  end.

(** The end of the pattern: the match stands. *)
Definition accept : Cont := fun rest cap => Some (rest, cap).

(** One match anchored at the start of [s]: the whole match and group 1. *)
Definition matchAt (r : Regexp) (s : string) : option (string * string) :=
  match exec r s None accept with
  | Some (rest, cap) =>
      Some (substring 0 (String.length s - String.length rest) s,
            match cap with Some g => g | None => EmptyString end)
  | None => None
  end.

(** [FindAllStringSubmatch(s, -1)] for a pattern that matches no empty
    string: the leftmost match, then the search goes on after it.  [skip]
    counts the bytes of the last match still to step over. *)
Fixpoint findAll (r : Regexp) (skip : nat) (s : string) : list (string * string) :=
  match s with
  | EmptyString => []
  | String _ s' =>
      match skip with
      | S n => findAll r n s'
      | O =>
          match matchAt r s with
          | Some m => m :: findAll r (String.length (fst m) - 1) s'
          | None => findAll r O s'
          end
      end
  end.

Definition FindAllStringSubmatch (r : Regexp) (s : string) : list (string * string) :=
  findAll r O s.

(** *** Building the pattern *)

Definition isByte (c : ascii) : ascii -> bool := Ascii.eqb c.

(** A byte under [(?i)]: either letter case. *)
Definition foldsTo (c : ascii) : ascii -> bool :=
  fun x => Ascii.eqb (strings.lowerByte x) (strings.lowerByte c).

(** A literal under [(?i)].  Go folds by Unicode simple case folding, and
    the orbit of [s] holds U+017F, of [k] U+212A; on the bytes of a string
    these are the UTF-8 sequences C5 BF and E2 84 AA.  No byte of either
    sequence is ASCII and none is a UTF-8 continuation of an earlier lead
    byte in the pattern, so matching on bytes agrees with matching on
    runes. *)
Definition foldLiteral (c : ascii) : Regexp :=
  if Ascii.eqb (strings.lowerByte c) "s"%char then
    Alternate (Class (foldsTo c))
              (Concat (Class (isByte "197"%char)) (Class (isByte "191"%char)))
  else if Ascii.eqb (strings.lowerByte c) "k"%char then
    Alternate (Class (foldsTo c))
              (Concat (Class (isByte "226"%char))
                      (Concat (Class (isByte "132"%char)) (Class (isByte "170"%char))))
  else Class (foldsTo c).

(** A literal string under [(?i)]. *)
Fixpoint foldString (cs : string) : Regexp :=
  match cs with
  | EmptyString => EmptyMatch
  | String c cs' => Concat (foldLiteral c) (foldString cs')
  end.

(** [\s] is [[\t\n\f\r ]] and [\d] is [[0-9]]: ASCII only. *)
Definition isSpace (c : ascii) : bool :=
  let n := strings.byte c in
  (n =? 9) || (n =? 10) || (n =? 12) || (n =? 13) || (n =? 32).

Definition isDigit : ascii -> bool := strings.isDigit.

End regexp.

(** [regexp.MustCompile(`(?i)depend(?:s|ed|ing)?\s+on:\s+#(\d+)`)]. *)
Definition dependOnRegexp : regexp.Regexp :=
  let lit := regexp.foldString in
  regexp.Concat (lit "depend")
    (regexp.Concat
       (regexp.Quest
          (regexp.Alternate (lit "s")
             (regexp.Alternate (lit "ed") (lit "ing"))))
       (regexp.Concat (regexp.Plus regexp.isSpace)
          (regexp.Concat (lit "on:")
             (regexp.Concat (regexp.Plus regexp.isSpace)
                (regexp.Concat (regexp.Class (regexp.isByte "#"%char))
                   (regexp.Capture (regexp.Plus regexp.isDigit))))))).

(** The inner loop of [main] over the matches of one body: each capture goes
    through [strconv.Atoi], and an error there is [panic(err)]. *)
Fixpoint convertMatches (ms : list (string * string)) (dependOns : list Z)
  : result (list Z) :=
  match ms with
  | [] => Ret dependOns
  | m :: ms' =>
      match strconv.Atoi (snd m) with
      | (i, None) => convertMatches ms' (dependOns ++ [i])%list
      | (_, Some err) => Panic (PanicError err)
      end
  end.

(** The references of one request body, as lines 113-123 compute them. *)
Definition ExtractDependencies (body : string) : result (list Z) :=
  convertMatches (regexp.FindAllStringSubmatch dependOnRegexp body) [].

(** ** fmt and errors *)

Definition newline : string := String "010"%char EmptyString.
Definition quote : string := String "034"%char EmptyString.

(** The [Error()] text of an error value.  [strconv.Quote] is written out
    for inputs that need no escaping, which is what [Atoi] receives here. *)
Definition errorString (e : error) : string :=
  match e with
  | ErrNoDependOn => "no dependencies found"
  | NumError f n k =>
      "strconv." ++ f ++ ": parsing " ++ quote ++ n ++ quote ++ ": "
      ++ match k with
         | ErrSyntax => "invalid syntax"
         | ErrRange => "value out of range"
         end
  | External msg => msg
  | Errorf msg => msg
  | Wrapf msg _ => msg
  end.

(** [errors.Is(e, ErrNoDependOn)]: identity with the sentinel somewhere down
    the chain of wrapped errors. *)
Fixpoint IsErrNoDependOn (e : error) : bool :=
  match e with
  | ErrNoDependOn => true
  | Wrapf _ w => IsErrNoDependOn w
  | _ => false
  end.

(** [%v] of a [[]int]. *)
Fixpoint joinInts (l : list Z) : string :=
  match l with
  | [] => EmptyString
  | [i] => strconv.Itoa i
  | i :: l' => strconv.Itoa i ++ " " ++ joinInts l'
  end.

Definition formatInts (l : list Z) : string := "[" ++ joinInts l ++ "]".

Fixpoint spaces (n : nat) : string :=
  match n with
  | O => EmptyString
  | S n' => String " "%char (spaces n')
  end.

(** [fmt.Sprintf("#%-4d", n)]. *)
Definition formatNumber (n : Z) : string :=
  let d := strconv.Itoa n in
  "#" ++ d ++ spaces (4 - String.length d).

(** ** Data model *)

Record PullRequest := {
  BaseRefName : string;
  HeadRefName : string;
  Body : string;
  IsDraft : bool;
  Number : Z;
  Title : string;
  URL : string;
  State : string;
  MergeCommitOid : string
}.

(** [ProcessedPullRequest]: the embedded request, the references found, the
    pointer to the resolved dependency (nil is [None]) and the error (nil is
    [None]). *)
Record ProcessedPullRequest := {
  Embedded : PullRequest;
  DependOns : list Z;
  DependedPullRequest : option PullRequest;
  Error : option error
}.

(** ** The collaborators *)

(** A process the program starts: [gh.ExecContext(ctx, args...)], or
    [exec.CommandContext(ctx, path, args...)] with what it adds to the
    environment. *)
Inductive command :=
| Gh (args : list string)
| Cmd (path : string) (args env : list string).

Inductive stream := Stdout | Stderr.

Inductive event :=
| Exec (c : command)
| Print (w : stream) (text : string).

(** The log of a run, oldest event first. *)
Definition Log := list event.

(** What a finished process hands back. *)
Record Completed := {
  stdout : string;
  stderr : string;
  err : option error
}.

Inductive Attribute :=
| Bold | FgWhite | FgHiBlack | FgHiYellow | FgRed | FgGreen | FgBlue | FgMagenta.

(** Everything outside the program: where a tool is found and what a command
    answers, both as functions of the log so far; the decoding of the three
    JSON shapes; and how the terminal renders a colour attribute. *)
Record World := {
  LookPath : Log -> string -> string + error;
  run : Log -> command -> Completed;
  unmarshalDefaultBranch : string -> string + error;
  unmarshalPullRequests : string -> list PullRequest + error;
  unmarshalPullRequest : string -> PullRequest + error;
  sprint : Attribute -> string -> string
}.

(** ** Runs *)

Definition M (A : Type) : Type := Log -> result A * Log.

Definition ret {A} (a : A) : M A := fun l => (Ret a, l).

Definition bind {A B} (m : M A) (f : A -> M B) : M B :=
  fun l =>
    match m l with
    | (Ret a, l') => f a l'
    | (Panic p, l') => (Panic p, l')
    end.

Definition panic {A} (p : panicValue) : M A := fun l => (Panic p, l).

Definition start (w : World) (c : command) : M Completed :=
  fun l => (Ret (run w l c), (l ++ [Exec c])%list).

Definition lookPath (w : World) (file : string) : M (string + error) :=
  fun l => (Ret (LookPath w l file), l).

Definition print (s : stream) (text : string) : M unit :=
  fun l => (Ret tt, (l ++ [Print s text])%list).

Notation "x <- m ;; k" := (bind m (fun x => k))
  (at level 61, m at next level, right associativity).
Notation "m ;;; k" := (bind m (fun _ => k))
  (at level 61, right associativity).

(** ** The operations of [main.go] *)

Section Program.

Variable w : World.

Definition nonEmpty (s : string) : bool := (0 <? String.length s)%nat.

(** [GetDefaultBranch]: the second [return "", err] is reached with
    [err == nil]. *)
Definition GetDefaultBranch : M (string * option error) :=
  r <- start w (Gh ["repo"; "view"; "--json"; "defaultBranchRef"]) ;;
  let err := err r in
  match err with
  | Some _ => ret (EmptyString, err)
  | None =>
      if nonEmpty (stderr r) then ret (EmptyString, err)
      else
        match unmarshalDefaultBranch w (stdout r) with
        | inr e => ret (EmptyString, Some e)
        | inl name => ret (name, None)
        end
  end.

Definition FetchOriginBranch (branch : string) : M (option error) :=
  p <- lookPath w "git" ;;
  match p with
  | inr e => ret (Some e)
  | inl gitPath =>
      r <- start w (Cmd gitPath ["fetch"; "origin"; branch] []) ;;
      match err r with
      | Some e => ret (Some e)
      | None => ret None
      end
  end.

Definition pullRequestFields : string :=
  "baseRefName,body,headRefName,isDraft,number,title,url,mergeCommit,state".

(** [ListPullRequests]: a nil slice and an empty one are both [[]]. *)
Definition ListPullRequests : M (list PullRequest * option error) :=
  r <- start w (Gh ["pr"; "list"; "--author"; "@me"; "--state"; "open";
                    "--json"; pullRequestFields]) ;;
  let err := err r in
  match err with
  | Some _ => ret ([], err)
  | None =>
      if nonEmpty (stderr r) then ret ([], err)
      else
        match unmarshalPullRequests w (stdout r) with
        | inr e => ret ([], Some e)
        | inl pullRequests => ret (pullRequests, None)
        end
  end.

(** [GetPullRequest]: the pointer returned is nil on every early return,
    also on the one that returns a nil error. *)
Definition GetPullRequest (number : Z)
  : M (option PullRequest * option error) :=
  r <- start w (Gh ["pr"; "view"; strconv.Itoa number;
                    "--json"; pullRequestFields]) ;;
  let err := err r in
  match err with
  | Some _ => ret (None, err)
  | None =>
      if nonEmpty (stderr r) then ret (None, err)
      else
        match unmarshalPullRequest w (stdout r) with
        | inr e => ret (None, Some e)
        | inl pullRequest => ret (Some pullRequest, None)
        end
  end.

Definition IsCurrentBranchDirty : M (bool * option error) :=
  p <- lookPath w "git" ;;
  match p with
  | inr e => ret (false, Some e)
  | inl gitPath =>
      r <- start w (Cmd gitPath ["status"; "--porcelain"] []) ;;
      match err r with
      | Some e => ret (false, Some e)
      | None => ret (nonEmpty (stdout r), None)
      end
  end.

Definition CheckoutToPullRequest (number : Z) : M (option error) :=
  p <- lookPath w "gh" ;;
  match p with
  | inr e => ret (Some e)
  | inl ghPath =>
      r <- start w (Cmd ghPath ["pr"; "checkout"; strconv.Itoa number]
                        ["CLICOLOR_FORCE=0"]) ;;
      match err r with
      | Some e => ret (Some (Wrapf (stderr r ++ ": " ++ errorString e) e))
      | None => ret None
      end
  end.

Definition conflictIndicator : string := "could not apply".

Definition RebaseOntoPullRequest (targetBase oldParent topicBranch : string)
  : M (option error) :=
  p <- lookPath w "git" ;;
  match p with
  | inr e => ret (Some e)
  | inl gitPath =>
      r <- start w (Cmd gitPath
                        ["rebase"; "--onto"; targetBase; oldParent; topicBranch]
                        []) ;;
      match err r with
      | Some e =>
          start w (Cmd gitPath ["rebase"; "--abort"] []) ;;;
          if strings.Contains (stderr r) conflictIndicator then
            match strings.sliceTo oldParent 7 with
            | None => panic (PanicSliceBounds 7 (String.length oldParent))
            | Some short =>
                ret (Some (Errorf ("conflicted while rebasing " ++ topicBranch
                                   ++ " onto " ++ targetBase
                                   ++ " (old parent: " ++ short ++ ")")))
            end
          else ret (Some (Wrapf (stderr r ++ ": " ++ errorString e) e))
      | None => ret None
      end
  end.

Definition getColor (pullRequest : PullRequest) : Attribute :=
  if String.eqb (State pullRequest) "OPEN" then
    if IsDraft pullRequest then FgHiBlack else FgGreen
  else if String.eqb (State pullRequest) "MERGED" then FgMagenta
  else if String.eqb (State pullRequest) "CLOSED" then FgRed
  else FgHiBlack.

(** *** The body of the processing loop (lines 113-190)

    [err] is the variable of [main] that line 125 reads: the loop never
    assigns it, since line 148 declares an [err] of its own for the rest
    of the body. *)
Definition failed (pr : PullRequest) (dependOns : list Z) (e : error)
  : ProcessedPullRequest :=
  {| Embedded := pr; DependOns := dependOns;
     DependedPullRequest := None; Error := Some e |}.

Definition processPullRequest (defaultBranch : string) (err : option error)
           (pr : PullRequest) : M ProcessedPullRequest :=
  match ExtractDependencies (Body pr) with
  | Panic p => panic p
  | Ret dependOns =>
      match err with
      | Some e =>
          panic (PanicError
                   (Wrapf ("pull request number is not integer: "
                           ++ errorString e) e))
      | None =>
          if (List.length dependOns =? 0)%nat then
            ret (failed pr [] ErrNoDependOn)
          else if (1 <? List.length dependOns)%nat then
            ret (failed pr dependOns
                   (Errorf ("multiple dependencies found: "
                            ++ formatInts dependOns)))
          else
            let dependOn := hd 0 dependOns in
            got <- GetPullRequest dependOn ;;
            let '(dependedPullRequest, err) := got in
            match err with
            | Some e =>
                ret (failed pr dependOns
                       (Wrapf ("failed to get depended PR #"
                               ++ strconv.Itoa dependOn ++ ": "
                               ++ errorString e) e))
            | None =>
                match dependedPullRequest with
                | None => panic PanicNilDereference
                | Some depended =>
                    if negb (String.eqb (State depended) "MERGED") then
                      ret (failed pr dependOns
                             (Errorf ("depended PR #" ++ strconv.Itoa dependOn
                                      ++ " is not merged")))
                    else
                      err <- CheckoutToPullRequest (Number pr) ;;
                      match err with
                      | Some e =>
                          ret (failed pr dependOns
                                 (Wrapf ("failed to checkout to depended PR #"
                                         ++ strconv.Itoa dependOn ++ ": "
                                         ++ errorString e) e))
                      | None =>
                          err <- RebaseOntoPullRequest
                                   ("origin/" ++ defaultBranch)
                                   (MergeCommitOid depended)
                                   (HeadRefName pr) ;;
                          match err with
                          | Some e =>
                              ret (failed pr dependOns
                                     (Wrapf ("failed to rebase depended PR #"
                                             ++ strconv.Itoa dependOn ++ ": "
                                             ++ errorString e) e))
                          | None =>
                              ret {| Embedded := pr;
                                     DependOns := dependOns;
                                     DependedPullRequest := dependedPullRequest;
                                     Error := None |}
                          end
                      end
                end
            end
      end
  end.

(** The loop of line 112: one append per request, in order. *)
Fixpoint processPullRequests (defaultBranch : string) (err : option error)
         (pullRequests : list PullRequest)
         (processedPullRequests : list ProcessedPullRequest)
  : M (list ProcessedPullRequest) :=
  match pullRequests with
  | [] => ret processedPullRequests
  | pr :: rest =>
      p <- processPullRequest defaultBranch err pr ;;
      processPullRequests defaultBranch err rest
                          (processedPullRequests ++ [p])%list
  end.

End Program.

(** ** The reporter and [main] *)

Section Report.

Variable w : World.

Fixpoint forEach {A} (f : A -> M unit) (l : list A) : M unit :=
  match l with
  | [] => ret tt
  | a :: l' => f a ;;; forEach f l'
  end.

(** One round of the loop of lines 197-208; line 207 reads through the
    [DependedPullRequest] pointer. *)
Definition reportRebased (pr : ProcessedPullRequest) : M unit :=
  match Error pr with
  | Some _ => ret tt
  | None =>
      let colorFn := sprint w (getColor (Embedded pr)) in
      print Stdout ("  " ++ sprint w FgWhite (BaseRefName (Embedded pr))
                    ++ " ← " ++ sprint w FgWhite (HeadRefName (Embedded pr))
                    ++ newline) ;;;
      print Stdout ("    └─ " ++ colorFn (formatNumber (Number (Embedded pr)))
                    ++ " " ++ URL (Embedded pr) ++ newline) ;;;
      match DependedPullRequest pr with
      | None => panic PanicNilDereference
      | Some depended =>
          print Stdout ("       └─ " ++ colorFn (formatNumber (Number depended))
                        ++ " " ++ URL depended ++ newline)
      end
  end.

(** One round of the loop of lines 211-231. *)
Definition reportNotRebased (pr : ProcessedPullRequest) : M unit :=
  match Error pr with
  | None => ret tt
  | Some e =>
      let colorFn :=
        if IsDraft (Embedded pr) then sprint w FgHiBlack else sprint w FgGreen in
      print Stdout ("  " ++ sprint w FgWhite (BaseRefName (Embedded pr))
                    ++ " ← " ++ sprint w FgWhite (HeadRefName (Embedded pr))
                    ++ newline) ;;;
      print Stdout ("    └─ " ++ colorFn (formatNumber (Number (Embedded pr)))
                    ++ " " ++ URL (Embedded pr) ++ newline) ;;;
      if IsErrNoDependOn e then
        print Stdout ("             " ++ sprint w FgHiYellow (errorString e)
                      ++ newline)
      else
        print Stdout ("             " ++ sprint w FgRed (errorString e)
                      ++ newline)
  end.

Definition report (processedPullRequests : list ProcessedPullRequest) : M unit :=
  print Stdout (sprint w FgGreen "✔" ++ " Rebasing pull requests..." ++ newline) ;;;
  print Stdout (newline ++ sprint w Bold "Rebased pull requests" ++ newline) ;;;
  forEach reportRebased processedPullRequests ;;;
  print Stdout (newline ++ sprint w Bold "Pull requests not rebased" ++ newline) ;;;
  forEach reportNotRebased processedPullRequests.

Definition dirtyMessage : string :=
  sprint w FgRed "x" ++ " "
  ++ "current branch is dirty. please retry after stashing or committing your changes."
  ++ newline.

(** [main], without the spinner (a presentation collaborator that starts
    no process and prints nothing that outlives it). *)
Definition main : M unit :=
  d <- IsCurrentBranchDirty w ;;
  let '(isDirty, err) := d in
  match err with
  | Some e =>
      print Stderr (sprint w FgRed "error:" ++ " " ++ errorString e ++ newline)
  | None =>
      if isDirty then print Stderr dirtyMessage
      else
        b <- GetDefaultBranch w ;;
        let '(defaultBranch, err) := b in
        match err with
        | Some e =>
            print Stderr ("resolve default branch: " ++ errorString e ++ newline)
        | None =>
            err <- FetchOriginBranch w defaultBranch ;;
            match err with
            | Some e =>
                print Stderr ("fetch origin/" ++ defaultBranch ++ " branch: "
                              ++ errorString e ++ newline)
            | None =>
                l <- ListPullRequests w ;;
                let '(pullRequests, err) := l in
                match err with
                | Some e =>
                    print Stderr ("list pull requests: " ++ errorString e
                                  ++ newline)
                | None =>
                    print Stdout (sprint w FgGreen "✔"
                                  ++ " Fetching pull requests..." ++ newline) ;;;
                    if (List.length pullRequests =? 0)%nat then
                      print Stdout (sprint w FgGreen "✔"
                                    ++ " No open or draft pull requests found."
                                    ++ newline)
                    else
                      print Stdout
                            (sprint w FgGreen "✔" ++ " Found "
                             ++ strconv.Itoa (Z.of_nat (List.length pullRequests))
                             ++ " open or draft pull requests." ++ newline) ;;;
                      processedPullRequests <-
                        processPullRequests w defaultBranch err pullRequests [] ;;
                      report processedPullRequests
                end
            end
        end
  end.

End Report.

(** ** Properties of logs *)

Definition isGh (e : event) : bool :=
  match e with
  | Exec (Gh _) => true
  | _ => false
  end.

Definition isCheckout (e : event) : bool :=
  match e with
  | Exec (Cmd _ ("pr" :: "checkout" :: _) _) => true
  | _ => false
  end.

Definition isRebase (e : event) : bool :=
  match e with
  | Exec (Cmd _ ("rebase" :: "--onto" :: _) _) => true
  | _ => false
  end.

(** The old-parent argument of a rebase command. *)
Definition rebaseOldParent (e : event) : option string :=
  match e with
  | Exec (Cmd _ ["rebase"; "--onto"; _; oldParent; _] _) => Some oldParent
  | _ => None
  end.

(** The working copy is dirty when [git status --porcelain], run first,
    prints something. *)
Definition dirty (w : World) : Prop :=
  forall gitPath,
    LookPath w [] "git" = inl gitPath ->
    stdout (run w [] (Cmd gitPath ["status"; "--porcelain"] [])) <> EmptyString.

(** ** Scripted worlds

    Concrete collaborators on which the operations are run: every tool is
    found, each kind of command answers what the script says whatever came
    before, and the decoders hand back the records of the script. *)

Module Script.

Definition succeeded (out : string) : Completed :=
  {| stdout := out; stderr := EmptyString; err := None |}.

Definition exited (diagnostic : string) : Completed :=
  {| stdout := EmptyString; stderr := diagnostic;
     err := Some (External "exit status 1") |}.

(** Exit code zero with text on the diagnostic stream. *)
Definition warned (out diagnostic : string) : Completed :=
  {| stdout := out; stderr := diagnostic; err := None |}.

Definition request (number : Z) (body state oid : string) : PullRequest :=
  {| BaseRefName := "main";
     HeadRefName := "topic-" ++ strconv.Itoa number;
     Body := body;
     IsDraft := false;
     Number := number;
     Title := "change " ++ strconv.Itoa number;
     URL := "https://example.test/pull/" ++ strconv.Itoa number;
     State := state;
     MergeCommitOid := oid |}.

Record Script := {
  status : Completed;
  query : Completed;
  listed : list PullRequest;
  depended : PullRequest;
  checkout : Completed;
  rebase : Completed
}.

Definition world (s : Script) : World :=
  {| LookPath := fun _ file => inl ("/usr/bin/" ++ file);
     run := fun _ c =>
              match c with
              | Gh _ => query s
              | Cmd _ ("status" :: _) _ => status s
              | Cmd _ ("pr" :: "checkout" :: _) _ => checkout s
              | Cmd _ ("rebase" :: "--onto" :: _) _ => rebase s
              | Cmd _ _ _ => succeeded EmptyString
              end;
     unmarshalDefaultBranch := fun _ => inl "main";
     unmarshalPullRequests := fun _ => inl (listed s);
     unmarshalPullRequest := fun _ => inl (depended s);
     sprint := fun _ text => text |}.

Definition oid : string := "abc1234def5678abc1234def5678abc1234def56".

(** Request 10 depends on the merged request 123; request 11 declares
    nothing; request 12 names two requests. *)
Definition clean : Script :=
  {| status := succeeded EmptyString;
     query := succeeded "{}";
     listed := [request 10 "Depends on: #123" "OPEN" EmptyString;
                request 11 "Fixes a typo" "OPEN" EmptyString;
                request 12 "Depends on: #1 Depends on: #2" "OPEN" EmptyString];
     depended := request 123 "base work" "MERGED" oid;
     checkout := succeeded EmptyString;
     rebase := succeeded EmptyString |}.

Definition withStatus (c : Completed) (s : Script) : Script :=
  {| status := c; query := query s; listed := listed s;
     depended := depended s; checkout := checkout s; rebase := rebase s |}.

Definition withQuery (c : Completed) (s : Script) : Script :=
  {| status := status s; query := c; listed := listed s;
     depended := depended s; checkout := checkout s; rebase := rebase s |}.

Definition withDepended (p : PullRequest) (s : Script) : Script :=
  {| status := status s; query := query s; listed := listed s;
     depended := p; checkout := checkout s; rebase := rebase s |}.

Definition withRebase (c : Completed) (s : Script) : Script :=
  {| status := status s; query := query s; listed := listed s;
     depended := depended s; checkout := checkout s; rebase := c |}.

Definition conflict : Completed :=
  exited "error: could not apply 1a2b3c4... add feature".

End Script.

(** ** Outcomes *)

(** The two states of a finished outcome. *)
Definition rebased (p : ProcessedPullRequest) : Prop := Error p = None.

Definition notRebased (p : ProcessedPullRequest) : Prop :=
  exists e, Error p = Some e.

(** The events a run added to the log it started from. *)
Definition added (before after : Log) : Log :=
  skipn (List.length before) after.

Definition lookupOf (number : Z) : event :=
  Exec (Gh ["pr"; "view"; strconv.Itoa number; "--json"; pullRequestFields]).

Definition notMergedError (dependOn : Z) : error :=
  Errorf ("depended PR #" ++ strconv.Itoa dependOn ++ " is not merged").

Definition multipleError (dependOns : list Z) : error :=
  Errorf ("multiple dependencies found: " ++ formatInts dependOns).

Definition rebaseCommand (gitPath targetBase oldParent topicBranch : string)
  : command :=
  Cmd gitPath ["rebase"; "--onto"; targetBase; oldParent; topicBranch] [].

Definition abortCommand (gitPath : string) : command :=
  Cmd gitPath ["rebase"; "--abort"] [].

Definition conflictError (targetBase short topicBranch : string) : error :=
  Errorf ("conflicted while rebasing " ++ topicBranch ++ " onto " ++ targetBase
          ++ " (old parent: " ++ short ++ ")").

(** ** Dependency declarations

    The text of one declaration as the pattern reads it: a keyword of the
    family, white space, the word [on:] with its colon, white space, [#] and
    the digits; [trailer] is what follows up to the next declaration. *)

Definition keywords : list string :=
  ["depend"; "depends"; "depended"; "depending"].

Record Declaration := {
  keyword : string;
  gap1 : string;
  on : string;
  gap2 : string;
  digits : string;
  trailer : string
}.

Definition written (d : Declaration) : string :=
  keyword d ++ gap1 d ++ on d ++ gap2 d ++ "#" ++ digits d ++ trailer d.

Fixpoint writtenAll (ds : list Declaration) : string :=
  match ds with
  | [] => EmptyString
  | d :: ds' => written d ++ writtenAll ds'
  end.

Definition isD : ascii -> bool := regexp.foldsTo "d"%char.

(** A declaration in any letter case whose number fits an [int], followed by
    text that neither continues the digits nor holds a [d] or [D]. *)
Definition declares (d : Declaration) : bool :=
  existsb (String.eqb (strings.ToLowerASCII (keyword d))) keywords
  && nonEmpty (gap1 d) && strings.allBytes regexp.isSpace (gap1 d)
  && String.eqb (strings.ToLowerASCII (on d)) "on:"
  && nonEmpty (gap2 d) && strings.allBytes regexp.isSpace (gap2 d)
  && nonEmpty (digits d) && strings.allDigits (digits d)
  && (strconv.decimal (digits d) <=? strconv.MaxInt)
  && negb (strings.startsWithDigit (trailer d))
  && negb (strings.hasByte isD (trailer d)).

Definition referenceOf (d : Declaration) : Z := strconv.decimal (digits d).

(** The value a capture stands for and the first capture too large for an
    [int], if any. *)
Definition captured (m : string * string) : Z := strconv.decimal (snd m).

Definition overflows (m : string * string) : bool :=
  strconv.MaxInt <? captured m.

(** The part of a declaration the pattern matches. *)
Definition matched (d : Declaration) : string :=
  keyword d ++ gap1 d ++ on d ++ gap2 d ++ "#" ++ digits d.

(** [declares], as propositions. *)
Record Declared (d : Declaration) : Prop := {
  declared_keyword : In (strings.ToLowerASCII (keyword d)) keywords;
  declared_gap1 :
    gap1 d <> EmptyString /\ strings.allBytes regexp.isSpace (gap1 d) = true;
  declared_on : strings.ToLowerASCII (on d) = "on:";
  declared_gap2 :
    gap2 d <> EmptyString /\ strings.allBytes regexp.isSpace (gap2 d) = true;
  declared_digits :
    digits d <> EmptyString /\ strings.allDigits (digits d) = true;
  declared_fits : strconv.decimal (digits d) <= strconv.MaxInt;
  declared_trailer :
    strings.startsWithDigit (trailer d) = false /\
    strings.hasByte isD (trailer d) = false
}.

Definition isASCII (c : ascii) : bool := strings.byte c <? 128.

(** The pattern in three parts: the stem, the optional ending and what
    comes after the keyword. *)
Definition endings : regexp.Regexp :=
  regexp.Alternate (regexp.foldString "s")
    (regexp.Alternate (regexp.foldString "ed") (regexp.foldString "ing")).

Definition afterKeyword : regexp.Regexp :=
  regexp.Concat (regexp.Plus regexp.isSpace)
    (regexp.Concat (regexp.foldString "on:")
       (regexp.Concat (regexp.Plus regexp.isSpace)
          (regexp.Concat (regexp.Class (regexp.isByte "#"%char))
             (regexp.Capture (regexp.Plus regexp.isDigit))))).

(** A pattern whose classes do not tell a letter from its lower case. *)
Fixpoint caseStable (r : regexp.Regexp) : Prop :=
  match r with
  | regexp.EmptyMatch => True
  | regexp.Class p | regexp.Plus p => forall c, p (strings.lowerByte c) = p c
  | regexp.Concat a b | regexp.Alternate a b => caseStable a /\ caseStable b
  | regexp.Quest a | regexp.Capture a => caseStable a
  end.

Definition lowerResult (x : option (string * option string))
  : option (string * option string) :=
  option_map
    (fun y => (strings.ToLowerASCII (fst y),
               option_map strings.ToLowerASCII (snd y))) x.

Definition lowerMatch (m : string * string) : string * string :=
  (strings.ToLowerASCII (fst m), strings.ToLowerASCII (snd m)).

(** A rebase event is on the given old parent. *)
Definition keepsOldParent (oldParent : string) (e : event) : Prop :=
  isRebase e = true -> rebaseOldParent e = Some oldParent.

(** A body of four declarations for the examples. *)
Definition tab : string := String "009"%char EmptyString.

Definition sampleDeclarations : list Declaration :=
  [ {| keyword := "Depends"; gap1 := " "; on := "on:"; gap2 := " ";
       digits := "123"; trailer := " first," ++ newline |};
    {| keyword := "DEPENDING"; gap1 := "  "; on := "ON:"; gap2 := tab;
       digits := "45"; trailer := "; " |};
    {| keyword := "depended"; gap1 := newline; on := "On:"; gap2 := " ";
       digits := "123"; trailer := EmptyString |};
    {| keyword := "Depend"; gap1 := " "; on := "on:"; gap2 := " ";
       digits := "007"; trailer := "." |} ].

(** ** The repository flag (lines 39-48) *)

(** [RepositoryFlag] is a string; [Set] stores its argument through the
    pointer and returns a nil error, [String] reads it back. *)
Definition RepositoryFlag : Type := string.

Definition RepositoryFlag_String (r : RepositoryFlag) : string := r.

Definition RepositoryFlag_Set (r : RepositoryFlag) (s : string)
  : RepositoryFlag * option error := (s, None).

(** ** Commands and rounds *)

Definition statusCommand (gitPath : string) : command :=
  Cmd gitPath ["status"; "--porcelain"] [].

Definition repoViewCommand : command :=
  Gh ["repo"; "view"; "--json"; "defaultBranchRef"].

Definition fetchCommand (gitPath branch : string) : command :=
  Cmd gitPath ["fetch"; "origin"; branch] [].

Definition listCommand : command :=
  Gh ["pr"; "list"; "--author"; "@me"; "--state"; "open";
      "--json"; pullRequestFields].

Definition viewCommand (number : Z) : command :=
  Gh ["pr"; "view"; strconv.Itoa number; "--json"; pullRequestFields].

Definition checkoutCommand (ghPath : string) (number : Z) : command :=
  Cmd ghPath ["pr"; "checkout"; strconv.Itoa number] ["CLICOLOR_FORCE=0"].

(** The events that change the working copy. *)
Definition isMutation (e : event) : bool := isCheckout e || isRebase e.

Definition isAbort (e : event) : bool :=
  match e with
  | Exec (Cmd _ ["rebase"; "--abort"] _) => true
  | _ => false
  end.

Definition isPrint (e : event) : bool :=
  match e with
  | Print _ _ => true
  | Exec _ => false
  end.

(** The collaborators never answer a successful lookup with text on the
    diagnostic stream, and a merged request comes with at least the seven
    bytes of commit id that the conflict message takes. *)
Definition quietLookups (w : World) : Prop :=
  forall l number,
    err (run w l (viewCommand number)) = None ->
    stderr (run w l (viewCommand number)) = EmptyString.

Definition fullCommitIds (w : World) : Prop :=
  forall text depended,
    unmarshalPullRequest w text = inl depended ->
    State depended = "MERGED" ->
    (7 <= String.length (MergeCommitOid depended))%nat.

(** No collaborator hands back the sentinel of this program. *)
Definition foreignErrors (w : World) : Prop :=
  (forall l c e, err (run w l c) = Some e -> IsErrNoDependOn e = false) /\
  (forall l file e, LookPath w l file = inr e -> IsErrNoDependOn e = false) /\
  (forall text e, unmarshalPullRequest w text = inr e -> IsErrNoDependOn e = false).

(** What the two sections of the report print for one outcome. *)
Definition rebasedSection (w : World) (pr : ProcessedPullRequest) : list event :=
  match Error pr, DependedPullRequest pr with
  | None, Some depended =>
      let colorFn := sprint w (getColor (Embedded pr)) in
      [Print Stdout ("  " ++ sprint w FgWhite (BaseRefName (Embedded pr))
                     ++ " ← " ++ sprint w FgWhite (HeadRefName (Embedded pr))
                     ++ newline);
       Print Stdout ("    └─ " ++ colorFn (formatNumber (Number (Embedded pr)))
                     ++ " " ++ URL (Embedded pr) ++ newline);
       Print Stdout ("       └─ " ++ colorFn (formatNumber (Number depended))
                     ++ " " ++ URL depended ++ newline)]
  | _, _ => []
  end.

Definition notRebasedSection (w : World) (pr : ProcessedPullRequest) : list event :=
  match Error pr with
  | None => []
  | Some e =>
      let colorFn :=
        if IsDraft (Embedded pr) then sprint w FgHiBlack else sprint w FgGreen in
      [Print Stdout ("  " ++ sprint w FgWhite (BaseRefName (Embedded pr))
                     ++ " ← " ++ sprint w FgWhite (HeadRefName (Embedded pr))
                     ++ newline);
       Print Stdout ("    └─ " ++ colorFn (formatNumber (Number (Embedded pr)))
                     ++ " " ++ URL (Embedded pr) ++ newline);
       Print Stdout ("             "
                     ++ sprint w (if IsErrNoDependOn e then FgHiYellow else FgRed)
                              (errorString e)
                     ++ newline)]
  end.

Definition reportHeader (w : World) : list event :=
  [Print Stdout (sprint w FgGreen "✔" ++ " Rebasing pull requests..." ++ newline);
   Print Stdout (newline ++ sprint w Bold "Rebased pull requests" ++ newline)].

Definition notRebasedHeader (w : World) : list event :=
  [Print Stdout (newline ++ sprint w Bold "Pull requests not rebased" ++ newline)].

(** No reference of the body is too large for an [int]. *)
Definition fits (body : string) : bool :=
  match find overflows (regexp.FindAllStringSubmatch dependOnRegexp body) with
  | Some _ => false
  | None => true
  end.

(** An outcome the reporter can print: a nil error comes with the
    dependency. *)
Definition printable (p : ProcessedPullRequest) : Prop :=
  Error p = None -> DependedPullRequest p <> None.

(** The processes a round starts for one request. *)
Definition isLookup (e : event) : bool :=
  match e with
  | Exec (Gh ("pr" :: "view" :: _)) => true
  | _ => false
  end.

Definition perRequest (e : event) : bool := isLookup e || isMutation e.

(** The two lines [main] prints between the list query and the loop. *)
Definition fetchedLines (w : World) (pullRequests : list PullRequest) : Log :=
  [Print Stdout (sprint w FgGreen "✔" ++ " Fetching pull requests..." ++ newline);
   Print Stdout (sprint w FgGreen "✔" ++ " Found "
                 ++ strconv.Itoa (Z.of_nat (List.length pullRequests))
                 ++ " open or draft pull requests." ++ newline)].

(** [main] got through its setup: [git] found, the status query clean, the
    default branch resolved, fetched, and at least one request listed, each
    step with a nil error. *)
Definition setUp (w : World) (defaultBranch : string)
           (pullRequests : list PullRequest) (l : Log) : Prop :=
  exists gitPath l2 l3,
    IsCurrentBranchDirty w [] = (Ret (false, None), [Exec (statusCommand gitPath)]) /\
    GetDefaultBranch w [Exec (statusCommand gitPath)]
    = (Ret (defaultBranch, None), l2) /\
    FetchOriginBranch w defaultBranch l2 = (Ret None, l3) /\
    ListPullRequests w l3 = (Ret (pullRequests, None), l) /\
    pullRequests <> [].

(** [sub] occurs in [s] at some offset. *)
Definition occursIn (sub s : string) : Prop :=
  exists offset, substring offset (String.length sub) s = sub.

(** Every list the list query can decode holds bodies whose references fit
    an [int]. *)
Definition listedBodiesFit (w : World) : Prop :=
  forall text pullRequests,
    unmarshalPullRequests w text = inl pullRequests ->
    forallb (fun pr => fits (Body pr)) pullRequests = true.

(** * Proofs *)

Ltac unfold_run :=
  unfold bind, ret, panic, start, lookPath, print in *.

Ltac break_match_hyp H :=
  match type of H with
  | context [match ?x with _ => _ end] => destruct x eqn:?
  | context [if ?x then _ else _] => destruct x eqn:?
  end.

Ltac all_bytes c := destruct c as [[] [] [] [] [] [] [] []].

Ltac break_match_goal :=
  match goal with
  | |- context [match ?x with _ => _ end] => destruct x eqn:?
  | |- context [if ?x then _ else _] => destruct x eqn:?
  end.

Section OutcomeFacts.

Variable w : World.

(** What a finished round of the loop hands back. *)
Lemma processPullRequest_outcome defaultBranch err pr l p l' :
  processPullRequest w defaultBranch err pr l = (Ret p, l') ->
  Embedded p = pr /\
  ((Error p = None /\
    exists depended,
      DependedPullRequest p = Some depended /\ State depended = "MERGED") \/
   (DependedPullRequest p = None /\ exists e, Error p = Some e)).
Proof.
  unfold processPullRequest, GetPullRequest, CheckoutToPullRequest,
    RebaseOntoPullRequest, failed.
  unfold_run.
  intros H.
  repeat break_match_hyp H;
    try discriminate;
    repeat match goal with
           | E : (_, _) = (_, _) |- _ => inversion E; clear E; subst
           end;
    simpl; split; try reflexivity;
    try (right; split; [reflexivity | eexists; reflexivity]).
  all: left; split; [reflexivity |].
  all: eexists; split; [reflexivity |].
  all: match goal with
       | E : negb (String.eqb _ _) = false |- _ =>
           apply negb_false_iff in E; apply String.eqb_eq in E; exact E
       end.
Qed.

Lemma processPullRequests_outcomes defaultBranch err :
  forall pullRequests acc l processed l',
    processPullRequests w defaultBranch err pullRequests acc l
    = (Ret processed, l') ->
    exists fresh,
      processed = (acc ++ fresh)%list /\
      map Embedded fresh = pullRequests /\
      Forall (fun p =>
                (Error p = None /\
                 exists depended,
                   DependedPullRequest p = Some depended /\
                   State depended = "MERGED") \/
                (DependedPullRequest p = None /\ exists e, Error p = Some e))
             fresh.
Proof.
  induction pullRequests as [| pr rest IH]; intros acc l processed l' H.
  - simpl in H. unfold ret in H. inversion H; subst.
    exists []. rewrite app_nil_r. repeat split. constructor.
  - simpl in H. unfold bind in H.
    destruct (processPullRequest w defaultBranch err pr l) as [[p | pv] l1] eqn:E;
      [| discriminate].
    apply processPullRequest_outcome in E. destruct E as [Hpr Hcase].
    apply IH in H. destruct H as (fresh & -> & Hmap & Hall).
    exists (p :: fresh). rewrite <- app_assoc. simpl.
    repeat split.
    + now rewrite Hpr, Hmap.
    + constructor; assumption.
Qed.

End OutcomeFacts.

Lemma added_app (before extra : Log) :
  added before (before ++ extra)%list = extra.
Proof.
  unfold added. induction before as [| e before IH]; simpl; auto.
Qed.

Lemma added_refl (l : Log) : added l l = [].
Proof.
  rewrite <- (app_nil_r l) at 2. apply added_app.
Qed.

Section Lookups.

Variable w : World.

(** A lookup starts one process, whatever comes back. *)
Lemma GetPullRequest_log number l :
  snd (GetPullRequest w number l) = (l ++ [lookupOf number])%list.
Proof.
  unfold GetPullRequest, lookupOf. unfold_run.
  repeat break_match_goal; reflexivity.
Qed.

(** The three queries hand back a nil error whenever the process exits
    with status zero and writes to its diagnostic stream. *)
Lemma GetPullRequest_diagnostic number l :
  let r := run w l (Gh ["pr"; "view"; strconv.Itoa number; "--json";
                        pullRequestFields]) in
  err r = None -> stderr r <> EmptyString ->
  fst (GetPullRequest w number l) = Ret (None, None).
Proof.
  intros r Herr Hdiag. unfold GetPullRequest. unfold_run. fold r.
  rewrite Herr. unfold nonEmpty.
  destruct (stderr r); [congruence | reflexivity].
Qed.

Lemma GetDefaultBranch_diagnostic l :
  let r := run w l (Gh ["repo"; "view"; "--json"; "defaultBranchRef"]) in
  err r = None -> stderr r <> EmptyString ->
  fst (GetDefaultBranch w l) = Ret (EmptyString, None).
Proof.
  intros r Herr Hdiag. unfold GetDefaultBranch. unfold_run. fold r.
  rewrite Herr. unfold nonEmpty.
  destruct (stderr r); [congruence | reflexivity].
Qed.

Lemma ListPullRequests_diagnostic l :
  let r := run w l (Gh ["pr"; "list"; "--author"; "@me"; "--state"; "open";
                        "--json"; pullRequestFields]) in
  err r = None -> stderr r <> EmptyString ->
  fst (ListPullRequests w l) = Ret ([], None).
Proof.
  intros r Herr Hdiag. unfold ListPullRequests. unfold_run. fold r.
  rewrite Herr. unfold nonEmpty.
  destruct (stderr r); [congruence | reflexivity].
Qed.

(** The reporter ends normally on outcomes whose successes carry their
    dependency. *)
Lemma forEach_reportRebased_returns processed :
  Forall (fun p => Error p = None -> DependedPullRequest p <> None) processed ->
  forall l, exists l1, forEach (reportRebased w) processed l = (Ret tt, l1).
Proof.
  induction 1 as [| p rest Hp _ IH]; intros l; simpl.
  - eexists; reflexivity.
  - unfold reportRebased. unfold_run.
    destruct (Error p) eqn:E.
    + apply IH.
    + destruct (DependedPullRequest p) eqn:D.
      * apply IH.
      * exfalso. now apply Hp.
Qed.

Lemma forEach_reportNotRebased_returns processed :
  forall l, exists l1, forEach (reportNotRebased w) processed l = (Ret tt, l1).
Proof.
  induction processed as [| p rest IH]; intros l; simpl.
  - eexists; reflexivity.
  - unfold reportNotRebased. unfold_run.
    destruct (Error p); [destruct (IsErrNoDependOn e) |]; apply IH.
Qed.

Lemma report_returns processed :
  Forall (fun p => Error p = None -> DependedPullRequest p <> None) processed ->
  forall l, exists l1, report w processed l = (Ret tt, l1).
Proof.
  intros Hall l. unfold report.
  unfold bind at 1. unfold print at 1.
  unfold bind at 1. unfold print at 1.
  unfold bind at 1.
  match goal with
  | |- context [forEach (reportRebased w) processed ?l0] =>
      destruct (forEach_reportRebased_returns processed Hall l0) as [l1 ->]
  end.
  unfold bind at 1. unfold print at 1.
  apply forEach_reportNotRebased_returns.
Qed.

End Lookups.

(** ** The claims about the processing loop *)

(** C3: when the processing loop completes, it has appended one outcome per
    fetched request, in fetch order, and every outcome is in exactly one of
    the two states: rebased (nil error) or not rebased (an error). *)
Theorem C3_one_outcome_per_request :
  forall w defaultBranch err pullRequests l processed l',
    processPullRequests w defaultBranch err pullRequests [] l
    = (Ret processed, l') ->
    List.length processed = List.length pullRequests /\
    map Embedded processed = pullRequests /\
    Forall (fun p => (rebased p /\ ~ notRebased p) \/ (notRebased p /\ ~ rebased p))
           processed.
Proof.
  intros w defaultBranch err pullRequests l processed l' H.
  apply processPullRequests_outcomes in H.
  destruct H as (fresh & -> & Hmap & Hall). simpl.
  split; [| split].
  - rewrite <- Hmap. now rewrite length_map.
  - exact Hmap.
  - eapply Forall_impl; [| exact Hall].
    intros p [[Hnil _] | [_ [e He]]]; unfold rebased, notRebased.
    + left. split; [exact Hnil |]. intros [e He]. congruence.
    + right. split; [now exists e |]. congruence.
Qed.

Lemma C3_witness :
  exists processed l',
    processPullRequests (Script.world Script.clean) "main" None
                        (Script.listed Script.clean) [] []
    = (Ret processed, l') /\
    List.length processed = 3%nat /\
    map Embedded processed = Script.listed Script.clean /\
    Forall (fun p => (rebased p /\ ~ notRebased p) \/ (notRebased p /\ ~ rebased p))
           processed.
Proof.
  eexists. eexists. split.
  - vm_compute. reflexivity.
  - eapply (C3_one_outcome_per_request
             (Script.world Script.clean) "main" None
             (Script.listed Script.clean) []).
    vm_compute. reflexivity.
Defined.

(** C10: when the processing loop completes, an outcome with a nil error
    carries its resolved dependency and an outcome with an error carries
    none; so the reporter, whose success section reads the number and the
    URL through that pointer, ends without a nil dereference. *)
Theorem C10_rebased_outcome_carries_dependency :
  forall w defaultBranch err pullRequests l processed l',
    processPullRequests w defaultBranch err pullRequests [] l
    = (Ret processed, l') ->
    Forall (fun p =>
              (Error p = None -> DependedPullRequest p <> None) /\
              (Error p <> None -> DependedPullRequest p = None))
           processed /\
    forall l0, exists l1, report w processed l0 = (Ret tt, l1).
Proof.
  intros w defaultBranch err pullRequests l processed l' H.
  apply processPullRequests_outcomes in H.
  destruct H as (fresh & -> & _ & Hall). simpl.
  assert (Hboth :
            Forall (fun p =>
                      (Error p = None -> DependedPullRequest p <> None) /\
                      (Error p <> None -> DependedPullRequest p = None)) fresh).
  { eapply Forall_impl; [| exact Hall].
    intros p [[Hnil (d & Hd & _)] | [Hd [e He]]]; split; intros; congruence. }
  split; [exact Hboth |].
  apply report_returns.
  eapply Forall_impl; [| exact Hboth]. intros p [Hp _]. exact Hp.
Qed.

Lemma C10_witness :
  exists processed l',
    processPullRequests (Script.world Script.clean) "main" None
                        (Script.listed Script.clean) [] []
    = (Ret processed, l') /\
    Forall (fun p =>
              (Error p = None -> DependedPullRequest p <> None) /\
              (Error p <> None -> DependedPullRequest p = None))
           processed /\
    forall l0, exists l1, report (Script.world Script.clean) processed l0 = (Ret tt, l1).
Proof.
  eexists. eexists. split.
  - vm_compute. reflexivity.
  - eapply (C10_rebased_outcome_carries_dependency
             (Script.world Script.clean) "main" None
             (Script.listed Script.clean) []).
    vm_compute. reflexivity.
Defined.

(** C5: a request with exactly one reference whose dependency was fetched
    and is not in the merged state gets the "is not merged" failure; the
    lookup is the only process its round starts, so neither the checkout nor
    the rebase runs. *)
Theorem C5_unmerged_dependency_is_not_rebased :
  forall w defaultBranch pr dependOn depended l l1,
    ExtractDependencies (Body pr) = Ret [dependOn] ->
    GetPullRequest w dependOn l = (Ret (Some depended, None), l1) ->
    State depended <> "MERGED" ->
    processPullRequest w defaultBranch None pr l
    = (Ret (failed pr [dependOn] (notMergedError dependOn)), l1) /\
    added l l1 = [lookupOf dependOn] /\
    existsb isCheckout (added l l1) = false /\
    existsb isRebase (added l l1) = false.
Proof.
  intros w defaultBranch pr dependOn depended l l1 Hrefs Hget Hstate.
  assert (Hlog : l1 = (l ++ [lookupOf dependOn])%list).
  { pose proof (GetPullRequest_log w dependOn l) as E.
    rewrite Hget in E. exact E. }
  split.
  - unfold processPullRequest. rewrite Hrefs. simpl.
    unfold bind at 1. rewrite Hget.
    apply String.eqb_neq in Hstate. rewrite Hstate. reflexivity.
  - rewrite Hlog, added_app. repeat split.
Qed.

Lemma C5_witness :
  let w := Script.world
             (Script.withDepended
                (Script.request 123 "base work" "OPEN" EmptyString) Script.clean) in
  let pr := Script.request 10 "Depends on: #123" "OPEN" EmptyString in
  processPullRequest w "main" None pr []
  = (Ret (failed pr [123] (notMergedError 123)), [lookupOf 123]) /\
  added [] [lookupOf 123] = [lookupOf 123] /\
  existsb isCheckout (added [] [lookupOf 123]) = false /\
  existsb isRebase (added [] [lookupOf 123]) = false.
Proof.
  intros w pr.
  apply (C5_unmerged_dependency_is_not_rebased
           w "main" pr 123 (Script.request 123 "base work" "OPEN" EmptyString)
           [] [lookupOf 123]).
  - vm_compute. reflexivity.
  - vm_compute. reflexivity.
  - vm_compute. discriminate.
Defined.

(** C6: a request with no reference gets the [ErrNoDependOn] failure, and a
    request with two or more gets the "multiple dependencies" failure that
    carries all of them; in both cases its round starts no process at all:
    no lookup, no checkout, no rebase. *)
Theorem C6_reference_count_classifies :
  forall w defaultBranch pr dependOns l,
    ExtractDependencies (Body pr) = Ret dependOns ->
    (dependOns = [] ->
     processPullRequest w defaultBranch None pr l
     = (Ret (failed pr [] ErrNoDependOn), l)) /\
    ((2 <= List.length dependOns)%nat ->
     processPullRequest w defaultBranch None pr l
     = (Ret (failed pr dependOns (multipleError dependOns)), l) /\
     DependOns (failed pr dependOns (multipleError dependOns)) = dependOns) /\
    ((List.length dependOns <> 1)%nat ->
     added l (snd (processPullRequest w defaultBranch None pr l)) = []).
Proof.
  intros w defaultBranch pr dependOns l Hrefs.
  unfold processPullRequest. rewrite Hrefs.
  destruct dependOns as [| a [| b rest]]; simpl.
  - repeat split; intros; try reflexivity; try (simpl in *; lia).
    apply added_refl.
  - repeat split; intros; try discriminate; simpl in *; try lia.
  - repeat split; intros; try discriminate; try reflexivity.
    apply added_refl.
Qed.

Lemma C6_witness :
  let w := Script.world Script.clean in
  let pr := Script.request 12 "Depends on: #1 Depends on: #2" "OPEN" EmptyString in
  ([1; 2] = [] ->
   processPullRequest w "main" None pr [] = (Ret (failed pr [] ErrNoDependOn), [])) /\
  ((2 <= List.length [1; 2])%nat ->
   processPullRequest w "main" None pr []
   = (Ret (failed pr [1; 2] (multipleError [1; 2])), []) /\
   DependOns (failed pr [1; 2] (multipleError [1; 2])) = [1; 2]) /\
  ((List.length [1; 2] <> 1)%nat ->
   added [] (snd (processPullRequest w "main" None pr [])) = []).
Proof.
  intros w pr.
  apply (C6_reference_count_classifies w "main" pr [1; 2] []).
  vm_compute. reflexivity.
Defined.

(** ** The dirty working copy *)

(** C9: when the working copy is dirty as the run starts, [main] returns
    after at most the status query, with one message on the error stream:
    no request is fetched and no other process is started.  When [git] is
    found and the status query exits normally, the message is the one about
    the dirty branch. *)
Theorem C9_dirty_run_stops_first :
  forall w,
    dirty w ->
    exists l text,
      main w [] = (Ret tt, (l ++ [Print Stderr text])%list) /\
      (l = [] \/
       exists gitPath, l = [Exec (Cmd gitPath ["status"; "--porcelain"] [])]) /\
      existsb isGh l = false /\
      (forall gitPath,
          LookPath w [] "git" = inl gitPath ->
          err (run w [] (Cmd gitPath ["status"; "--porcelain"] [])) = None ->
          l = [Exec (Cmd gitPath ["status"; "--porcelain"] [])] /\
          text = dirtyMessage w).
Proof.
  intros w Hdirty. unfold dirty in Hdirty.
  unfold main, IsCurrentBranchDirty. unfold_run.
  destruct (LookPath w [] "git") as [gitPath | e] eqn:Hlook.
  - specialize (Hdirty gitPath eq_refl). simpl.
    destruct (err (run w [] (Cmd gitPath ["status"; "--porcelain"] []))) eqn:Herr.
    + exists [Exec (Cmd gitPath ["status"; "--porcelain"] [])].
      eexists. split; [reflexivity |].
      split; [right; eexists; reflexivity |].
      split; [reflexivity |].
      intros g Hg. inversion Hg; subst. intros Hnone. congruence.
    + unfold nonEmpty.
      destruct (stdout (run w [] (Cmd gitPath ["status"; "--porcelain"] [])))
        eqn:Hout; [congruence |].
      simpl. exists [Exec (Cmd gitPath ["status"; "--porcelain"] [])].
      exists (dirtyMessage w). split; [reflexivity |].
      split; [right; eexists; reflexivity |].
      split; [reflexivity |].
      intros g Hg. inversion Hg; subst. intros _. split; reflexivity.
  - simpl. exists []. eexists. split; [reflexivity |].
    split; [now left |]. split; [reflexivity |].
    intros g Hg. discriminate.
Qed.

Lemma C9_witness :
  let w := Script.world
             (Script.withStatus (Script.succeeded " M main.go") Script.clean) in
  exists l text,
    main w [] = (Ret tt, (l ++ [Print Stderr text])%list) /\
    (l = [] \/
     exists gitPath, l = [Exec (Cmd gitPath ["status"; "--porcelain"] [])]) /\
    existsb isGh l = false /\
    (forall gitPath,
        LookPath w [] "git" = inl gitPath ->
        err (run w [] (Cmd gitPath ["status"; "--porcelain"] [])) = None ->
        l = [Exec (Cmd gitPath ["status"; "--porcelain"] [])] /\
        text = dirtyMessage w).
Proof.
  intros w.
  apply (C9_dirty_run_stops_first w).
  unfold dirty. intros gitPath _. vm_compute. discriminate.
Defined.

(** ** The review-platform queries *)

(** C2, on the code: a query whose process exits with status zero and writes
    a warning to its diagnostic stream returns a nil error from each of the
    three operations ([return ..., err] with [err == nil]); in the loop the
    nil request that comes with it is then dereferenced. *)
Lemma C2_diagnostic_stream_returns_nil_error :
  let w := Script.world
             (Script.withQuery
                (Script.warned "{}" "warning: a new release of gh is available")
                Script.clean) in
  fst (GetDefaultBranch w []) = Ret (EmptyString, None) /\
  fst (ListPullRequests w []) = Ret ([], None) /\
  fst (GetPullRequest w 123 []) = Ret (None, None) /\
  fst (processPullRequest
         w "main" None
         (Script.request 10 "Depends on: #123" "OPEN" EmptyString) [])
  = Panic PanicNilDereference.
Proof.
  vm_compute. repeat split; reflexivity.
Qed.

(** ** The rebase executor *)

(** The failure path of [RebaseOntoPullRequest], whole: the abort is started
    right after the failed rebase, whatever it answers, and before the
    function ends; then the diagnostic text decides between the conflict
    error, built from the first seven bytes of the old parent, and the
    wrapped raw error.  An old parent shorter than seven bytes makes the
    slice expression panic. *)
Lemma RebaseOntoPullRequest_failure w targetBase oldParent topicBranch l gitPath e :
  LookPath w l "git" = inl gitPath ->
  err (run w l (rebaseCommand gitPath targetBase oldParent topicBranch)) = Some e ->
  let diagnostic :=
    stderr (run w l (rebaseCommand gitPath targetBase oldParent topicBranch)) in
  RebaseOntoPullRequest w targetBase oldParent topicBranch l
  = (if strings.Contains diagnostic conflictIndicator then
       if (7 <=? String.length oldParent)%nat then
         Ret (Some (conflictError targetBase (substring 0 7 oldParent) topicBranch))
       else Panic (PanicSliceBounds 7 (String.length oldParent))
     else Ret (Some (Wrapf (diagnostic ++ ": " ++ errorString e) e)),
     (l ++ [Exec (rebaseCommand gitPath targetBase oldParent topicBranch);
            Exec (abortCommand gitPath)])%list).
Proof.
  intros Hlook Herr diagnostic.
  unfold RebaseOntoPullRequest, rebaseCommand, abortCommand in *. unfold_run.
  rewrite Hlook, Herr. fold diagnostic.
  rewrite <- app_assoc. cbn [app].
  destruct (strings.Contains diagnostic conflictIndicator); [| reflexivity].
  unfold strings.sliceTo.
  destruct (7 <=? String.length oldParent)%nat; reflexivity.
Qed.

(** C7, on the code: a rebase that fails on a content conflict, with an old
    parent of fewer than seven bytes, is aborted and then panics in the
    slice expression instead of returning the conflict error. *)
Lemma C7_short_old_parent_panics :
  RebaseOntoPullRequest
    (Script.world (Script.withRebase Script.conflict Script.clean))
    "origin/main" "abc12" "topic-10" []
  = (Panic (PanicSliceBounds 7 5),
     [Exec (rebaseCommand "/usr/bin/git" "origin/main" "abc12" "topic-10");
      Exec (abortCommand "/usr/bin/git")]).
Proof.
  vm_compute. reflexivity.
Qed.

(** What the two mutating operations add to the log: the checkout starts no
    rebase, and a rebase is started on the old parent it was given. *)
Lemma CheckoutToPullRequest_log w number l :
  exists extra,
    snd (CheckoutToPullRequest w number l) = (l ++ extra)%list /\
    Forall (fun e => isRebase e = false) extra.
Proof.
  unfold CheckoutToPullRequest. unfold_run.
  destruct (LookPath w l "gh") as [ghPath | e].
  - eexists. split.
    + match goal with
      | |- context [err ?r] => destruct (err r)
      end; reflexivity.
    + repeat constructor.
  - exists []. split; [now rewrite app_nil_r | constructor].
Qed.

Lemma RebaseOntoPullRequest_log w targetBase oldParent topicBranch l :
  exists extra,
    snd (RebaseOntoPullRequest w targetBase oldParent topicBranch l)
    = (l ++ extra)%list /\
    Forall (keepsOldParent oldParent) extra.
Proof.
  unfold RebaseOntoPullRequest. unfold_run.
  destruct (LookPath w l "git") as [gitPath | e].
  - match goal with
    | |- context [err ?r] => destruct (err r) eqn:Herr
    end.
    + exists [Exec (rebaseCommand gitPath targetBase oldParent topicBranch);
              Exec (abortCommand gitPath)].
      split.
      * rewrite <- app_assoc.
        repeat break_match_goal; reflexivity.
      * repeat constructor; unfold keepsOldParent; simpl; intros;
          try discriminate; reflexivity.
    + exists [Exec (rebaseCommand gitPath targetBase oldParent topicBranch)].
      split; [reflexivity |].
      repeat constructor.
  - exists []. split; [now rewrite app_nil_r | constructor].
Qed.

(** C8, amended: a round that starts a checkout or a rebase has extracted
    exactly one reference, fetched that request without error and found it
    in the merged state; the rebase is started on the merge commit id as it
    was recorded, which nothing examines. *)
Theorem C8_checkout_only_for_merged :
  forall w defaultBranch err pr l,
    existsb (fun e => isCheckout e || isRebase e)
            (added l (snd (processPullRequest w defaultBranch err pr l))) = true ->
    exists dependOn depended l1,
      ExtractDependencies (Body pr) = Ret [dependOn] /\
      GetPullRequest w dependOn l = (Ret (Some depended, None), l1) /\
      State depended = "MERGED" /\
      Forall (keepsOldParent (MergeCommitOid depended))
             (added l (snd (processPullRequest w defaultBranch err pr l))).
Proof.
  intros w defaultBranch err pr l.
  unfold processPullRequest.
  destruct (ExtractDependencies (Body pr)) as [dependOns | pv];
    [| unfold panic; simpl; rewrite added_refl; discriminate].
  destruct err as [e |];
    [unfold panic; simpl; rewrite added_refl; discriminate |].
  destruct dependOns as [| dependOn [| b rest]]; simpl;
    try (unfold ret; simpl; rewrite added_refl; discriminate).
  unfold bind at 1.
  pose proof (GetPullRequest_log w dependOn l) as Hlog.
  destruct (GetPullRequest w dependOn l) as [[[[depended |] [e |]] | pv] l1] eqn:Hget;
    simpl in Hlog; subst l1;
    try (unfold ret, panic; simpl; rewrite added_app; simpl; discriminate).
  destruct (String.eqb (State depended) "MERGED") eqn:Hstate; simpl;
    [| unfold ret; simpl; rewrite added_app; simpl; discriminate].
  intros _. exists dependOn, depended. eexists.
  split; [reflexivity |]. split; [exact Hget |].
  split; [now apply String.eqb_eq |].
  unfold bind at 1. rewrite Hget, Hstate. cbn [negb].
  unfold bind at 1.
  destruct (CheckoutToPullRequest_log w (Number pr) (l ++ [lookupOf dependOn])%list)
    as (extra1 & Hlog1 & Hextra1).
  destruct (CheckoutToPullRequest w (Number pr) (l ++ [lookupOf dependOn])%list)
    as [[[e |] | pv] l2]; simpl in Hlog1; subst l2.
  - unfold ret. cbn [snd]. rewrite <- app_assoc, added_app.
    constructor; [unfold keepsOldParent; discriminate |].
    eapply Forall_impl; [| exact Hextra1].
    unfold keepsOldParent. intros ev Hev. congruence.
  - unfold bind at 1.
    match goal with
    | |- context [RebaseOntoPullRequest w ?tb ?op ?tp ?l0] =>
        destruct (RebaseOntoPullRequest_log w tb op tp l0)
          as (extra2 & Hlog2 & Hextra2);
        destruct (RebaseOntoPullRequest w tb op tp l0) as [[[e |] | pv] l3];
        simpl in Hlog2; subst l3
    end.
    all: unfold ret; cbn [snd]; rewrite <- !app_assoc, added_app.
    all: constructor; [unfold keepsOldParent; discriminate |].
    all: apply Forall_app; split; [| exact Hextra2].
    all: eapply Forall_impl; [| exact Hextra1].
    all: unfold keepsOldParent; intros ev Hev; congruence.
  - cbn [snd]. rewrite <- app_assoc, added_app.
    constructor; [unfold keepsOldParent; discriminate |].
    eapply Forall_impl; [| exact Hextra1].
    unfold keepsOldParent. intros ev Hev. congruence.
Qed.

Lemma C8_witness :
  let w := Script.world Script.clean in
  let pr := Script.request 10 "Depends on: #123" "OPEN" EmptyString in
  exists dependOn depended l1,
    ExtractDependencies (Body pr) = Ret [dependOn] /\
    GetPullRequest w dependOn [] = (Ret (Some depended, None), l1) /\
    State depended = "MERGED" /\
    Forall (keepsOldParent (MergeCommitOid depended))
           (added [] (snd (processPullRequest w "main" None pr []))).
Proof.
  intros w pr.
  apply (C8_checkout_only_for_merged w "main" None pr []).
  vm_compute. reflexivity.
Defined.

(** A dependency in the merged state with no recorded merge commit id
    passes validation: the checkout runs and the rebase is started on an
    empty old parent; on a content conflict the run panics where the
    conflict message takes the first seven bytes of it. *)
Lemma C8_counterexample :
  let depended := Script.request 123 "base work" "MERGED" EmptyString in
  let pr := Script.request 10 "Depends on: #123" "OPEN" EmptyString in
  let quiet := Script.world (Script.withDepended depended Script.clean) in
  let conflicting :=
    Script.world
      (Script.withRebase Script.conflict
         (Script.withDepended depended Script.clean)) in
  (exists p l,
      processPullRequest quiet "main" None pr [] = (Ret p, l) /\
      Error p = None /\
      existsb isCheckout l = true /\
      map rebaseOldParent (filter isRebase l) = [Some EmptyString]) /\
  (exists l,
      processPullRequest conflicting "main" None pr []
      = (Panic (PanicSliceBounds 7 0), l) /\
      map rebaseOldParent (filter isRebase l) = [Some EmptyString]).
Proof.
  split.
  - eexists. eexists. split; [vm_compute; reflexivity |].
    vm_compute. repeat split; reflexivity.
  - eexists. split; [vm_compute; reflexivity |].
    vm_compute. reflexivity.
Qed.

(** ** Bytes and strings *)

Lemma length_append (a b : string) :
  String.length (a ++ b) = (String.length a + String.length b)%nat.
Proof.
  induction a as [| c a IH]; simpl; [reflexivity | now rewrite IH].
Qed.

Lemma append_assoc (a b c : string) : (a ++ b) ++ c = a ++ (b ++ c).
Proof.
  induction a as [| x a IH]; simpl; [reflexivity | now rewrite IH].
Qed.

Lemma append_empty_r (a : string) : a ++ EmptyString = a.
Proof.
  induction a as [| x a IH]; simpl; [reflexivity | now rewrite IH].
Qed.

Lemma substring_whole_prefix (a b : string) :
  substring 0 (String.length a) (a ++ b) = a.
Proof.
  induction a as [| x a IH]; simpl.
  - destruct b; reflexivity.
  - now rewrite IH.
Qed.

(** The text between the start of [a ++ b] and the start of [b]. *)
Lemma substring_consumed (a b : string) :
  substring 0 (String.length (a ++ b) - String.length b) (a ++ b) = a.
Proof.
  rewrite length_append.
  replace (String.length a + String.length b - String.length b)%nat
    with (String.length a) by lia.
  apply substring_whole_prefix.
Qed.

Lemma byte_range (c : ascii) : 0 <= strings.byte c < 256.
Proof.
  unfold strings.byte.
  pose proof (N_ascii_bounded c) as H. lia.
Qed.

Lemma isDigit_value (c : ascii) :
  strings.isDigit c = true -> 0 <= strings.byte c - 48 <= 9.
Proof.
  unfold strings.isDigit. intros H.
  apply andb_true_iff in H. destruct H as [H1 H2].
  apply Z.leb_le in H1. apply Z.leb_le in H2. lia.
Qed.

(** ** [strconv.Atoi] on strings of digits *)

Lemma decimalFrom_ge (s : string) :
  strings.allDigits s = true ->
  forall n, 0 <= n -> n <= strconv.decimalFrom n s.
Proof.
  induction s as [| c s IH]; simpl; intros Hd n Hn; [lia |].
  apply andb_true_iff in Hd. destruct Hd as [Hc Hs].
  pose proof (isDigit_value c Hc).
  specialize (IH Hs (n * 10 + (strings.byte c - 48))). lia.
Qed.

Lemma parseUintLoop_digits (s : string) :
  strings.allDigits s = true ->
  forall n,
    0 <= n <= strconv.maxUint64 ->
    strconv.parseUintLoop s n
    = if strconv.decimalFrom n s <=? strconv.maxUint64
      then (strconv.decimalFrom n s, None)
      else (strconv.maxUint64, Some ErrRange).
Proof.
  induction s as [| c s IH]; intros Hd n Hn.
  - simpl. destruct (Z.leb_spec n strconv.maxUint64); [reflexivity | lia].
  - simpl in Hd. apply andb_true_iff in Hd. destruct Hd as [Hc Hs].
    pose proof (isDigit_value c Hc) as Hv.
    cbn [strconv.parseUintLoop strconv.decimalFrom].
    unfold strconv.digitVal. rewrite Hc.
    set (d := strings.byte c - 48) in *.
    pose proof (decimalFrom_ge s Hs (n * 10 + d)) as Hge.
    unfold strconv.maxUint64 in *.
    change (2 ^ 64) with 18446744073709551616 in *.
    change ((18446744073709551616 - 1) / 10 + 1) with 1844674407370955162.
    destruct (Z.leb_spec 1844674407370955162 n) as [Hcut | Hcut].
    + destruct (Z.leb_spec (strconv.decimalFrom (n * 10 + d) s)
                           (18446744073709551616 - 1)); [lia | reflexivity].
    + destruct (Z_lt_le_dec (n * 10 + d) 18446744073709551616) as [Hfit | Hover].
      * rewrite Z.mod_small by lia.
        destruct (Z.ltb_spec (n * 10 + d) (n * 10)); [lia |].
        destruct (Z.ltb_spec (18446744073709551616 - 1) (n * 10 + d)); [lia |].
        simpl orb. cbv iota.
        rewrite IH by (auto; lia). reflexivity.
      * assert (Hmod : (n * 10 + d) mod 18446744073709551616
                       = n * 10 + d - 18446744073709551616).
        { symmetry. apply Z.mod_unique with (q := 1); lia. }
        rewrite Hmod.
        destruct (Z.ltb_spec (n * 10 + d - 18446744073709551616) (n * 10));
          [| lia].
        simpl orb. cbv iota.
        destruct (Z.leb_spec (strconv.decimalFrom (n * 10 + d) s)
                             (18446744073709551616 - 1)); [lia | reflexivity].
Qed.

(** A non-empty string of digits converts to its value when the value fits
    an [int], and to a range error otherwise. *)
Lemma Atoi_digits (s : string) :
  s <> EmptyString ->
  strings.allDigits s = true ->
  strconv.Atoi s
  = if strconv.decimal s <=? strconv.MaxInt
    then (strconv.decimal s, None)
    else (strconv.MaxInt, Some (NumError "Atoi" s ErrRange)).
Proof.
  intros Hne Hd.
  destruct s as [| c s]; [congruence |].
  assert (Hc : strings.isDigit c = true).
  { simpl in Hd. now apply andb_true_iff in Hd. }
  pose proof (isDigit_value c Hc) as Hv.
  assert (Hplus : Ascii.eqb c "+"%char = false).
  { apply Ascii.eqb_neq. intros ->. vm_compute in Hc. discriminate. }
  assert (Hminus : Ascii.eqb c "-"%char = false).
  { apply Ascii.eqb_neq. intros ->. vm_compute in Hc. discriminate. }
  unfold strconv.Atoi, strconv.ParseInt.
  rewrite Hplus, Hminus. cbn [orb negb andb].
  unfold strconv.ParseUint, strconv.decimal.
  rewrite (parseUintLoop_digits (String c s) Hd 0)
    by (unfold strconv.maxUint64; simpl; lia).
  pose proof (decimalFrom_ge (String c s) Hd 0 ltac:(lia)) as Hge.
  set (v := strconv.decimalFrom 0 (String c s)) in *.
  unfold strconv.maxUint64, strconv.MaxInt, strconv.IntSize.
  change (2 ^ (64 - 1)) with 9223372036854775808.
  change (2 ^ 63) with 9223372036854775808.
  change (2 ^ 64) with 18446744073709551616.
  destruct (Z.leb_spec v (18446744073709551616 - 1)).
  - destruct (Z.leb_spec 9223372036854775808 v);
      destruct (Z.leb_spec v (9223372036854775808 - 1)); try lia; reflexivity.
  - destruct (Z.leb_spec 9223372036854775808 (18446744073709551616 - 1)); [| lia].
    destruct (Z.leb_spec v (9223372036854775808 - 1)); [lia | reflexivity].
Qed.

(** ** The matcher *)

Section Matcher.

Import regexp.

(** A successful repetition consumed a run of the class and then handed
    over to what follows. *)
Lemma star_sound p s k res :
  star p s k = Some res ->
  exists run rest,
    s = run ++ rest /\ strings.allBytes p run = true /\ k rest = Some res.
Proof.
  induction s as [| c s IH]; simpl; intros H.
  - exists EmptyString, EmptyString. auto.
  - destruct (p c) eqn:Hp.
    + destruct (star p s k) as [r |] eqn:Hs.
      * inversion H; subst r.
        destruct (IH eq_refl) as (run & rest & -> & Hrun & Hk).
        exists (String c run), rest. simpl. rewrite Hp. auto.
      * exists EmptyString, (String c s). auto.
    + exists EmptyString, (String c s). auto.
Qed.

(** Greedy repetition takes the whole run when what follows accepts. *)
Lemma star_run p run rest k res :
  strings.allBytes p run = true ->
  strings.startsWith p rest = false ->
  k rest = Some res ->
  star p (run ++ rest) k = Some res.
Proof.
  intros Hrun Hstop Hk.
  induction run as [| c run IH]; simpl.
  - destruct rest as [| c rest]; simpl in *; [exact Hk |].
    rewrite Hstop. exact Hk.
  - simpl in Hrun. apply andb_true_iff in Hrun. destruct Hrun as [Hc Hrun].
    rewrite Hc, (IH Hrun). reflexivity.
Qed.

(** Whatever a match attempt returns, its continuation returned. *)
Lemma exec_sound r :
  forall s cap k res,
    exec r s cap k = Some res ->
    exists s1 c1, k s1 c1 = Some res.
Proof.
  induction r as [| p | r1 IH1 r2 IH2 | r1 IH1 r2 IH2 | r IH | p | r IH];
    intros s cap k res H; simpl in H.
  - eauto.
  - destruct s as [| c s]; [discriminate |].
    destruct (p c); [eauto | discriminate].
  - apply IH1 in H. destruct H as (s1 & c1 & H).
    apply IH2 in H. exact H.
  - destruct (exec r1 s cap k) as [x |] eqn:E.
    + inversion H; subst x. eapply IH1; eauto.
    + eapply IH2; eauto.
  - destruct (exec r s cap k) as [x |] eqn:E.
    + inversion H; subst x. eapply IH; eauto.
    + eauto.
  - destruct s as [| c s]; [discriminate |].
    destruct (p c); [| discriminate].
    apply star_sound in H. destruct H as (run & rest & _ & _ & H). eauto.
  - apply IH in H. destruct H as (s1 & c1 & H). eauto.
Qed.

Lemma exec_Concat r1 r2 s cap k :
  exec (Concat r1 r2) s cap k = exec r1 s cap (fun s1 c1 => exec r2 s1 c1 k).
Proof. reflexivity. Qed.

(** A captured repetition hands the run it consumed to what follows. *)
Lemma exec_Capture_Plus p s cap k res :
  exec (Capture (Plus p)) s cap k = Some res ->
  exists run rest,
    s = run ++ rest /\ run <> EmptyString /\
    strings.allBytes p run = true /\ k rest (Some run) = Some res.
Proof.
  destruct s as [| c s]; [discriminate |].
  cbn [exec]. destruct (p c) eqn:Hc; [| discriminate].
  intros H. apply star_sound in H.
  destruct H as (run & rest & -> & Hrun & Hk).
  change (k rest
            (Some (substring 0
                     (String.length (String c run ++ rest) - String.length rest)
                     (String c run ++ rest))) = Some res) in Hk.
  rewrite substring_consumed in Hk.
  exists (String c run), rest.
  repeat split; try assumption; try discriminate.
  simpl. now rewrite Hc, Hrun.
Qed.

(** Group 1 of a match of the pattern is a non-empty string of digits. *)
Lemma matchAt_capture s whole group :
  matchAt dependOnRegexp s = Some (whole, group) ->
  group <> EmptyString /\ strings.allDigits group = true.
Proof.
  unfold matchAt.
  destruct (exec dependOnRegexp s None accept)
    as [[rest cap] |] eqn:H; [| discriminate].
  intros E.
  unfold dependOnRegexp in H.
  do 6 (rewrite exec_Concat in H; apply exec_sound in H;
        destruct H as (? & ? & H); cbv beta in H).
  apply exec_Capture_Plus in H.
  destruct H as (run & rest' & _ & Hne & Hrun & H).
  inversion H; subst; clear H.
  inversion E; subst; clear E.
  split; assumption.
Qed.

Lemma findAll_captures s :
  forall skip,
    Forall (fun m => snd m <> EmptyString /\ strings.allDigits (snd m) = true)
           (findAll dependOnRegexp skip s).
Proof.
  induction s as [| c s IH]; intros skip; simpl; [constructor |].
  destruct skip; [| apply IH].
  destruct (matchAt dependOnRegexp (String c s)) as [[whole group] |] eqn:E;
    [| apply IH].
  constructor; [| apply IH].
  simpl. eapply matchAt_capture; eauto.
Qed.

End Matcher.

(** The conversion loop, on captures that are digits: it stops with a panic
    at the first capture too large for an [int] and otherwise appends the
    value of each. *)
Lemma convertMatches_digits ms :
  Forall (fun m => snd m <> EmptyString /\ strings.allDigits (snd m) = true) ms ->
  forall acc,
    convertMatches ms acc
    = match find overflows ms with
      | Some m => Panic (PanicError (NumError "Atoi" (snd m) ErrRange))
      | None => Ret (acc ++ map captured ms)%list
      end.
Proof.
  induction 1 as [| m ms [Hne Hd] _ IH]; intros acc; simpl.
  - now rewrite app_nil_r.
  - rewrite (Atoi_digits (snd m) Hne Hd).
    unfold overflows, captured.
    destruct (Z.leb_spec (strconv.decimal (snd m)) strconv.MaxInt) as [Hle | Hgt].
    + destruct (Z.ltb_spec strconv.MaxInt (strconv.decimal (snd m))); [lia |].
      rewrite IH. unfold overflows, captured.
      destruct (find _ ms); [reflexivity |].
      now rewrite <- app_assoc.
    + destruct (Z.ltb_spec strconv.MaxInt (strconv.decimal (snd m))); [| lia].
      reflexivity.
Qed.

(** ** Letter case *)

Section LetterCase.

Import regexp.


Lemma lowerByte_idempotent c :
  strings.lowerByte (strings.lowerByte c) = strings.lowerByte c.
Proof. all_bytes c; reflexivity. Qed.

Lemma lower_length s : String.length (strings.ToLowerASCII s) = String.length s.
Proof. induction s as [| c s IH]; simpl; congruence. Qed.

Lemma lower_append a b : strings.ToLowerASCII (a ++ b) = strings.ToLowerASCII a ++ strings.ToLowerASCII b.
Proof. induction a as [| c a IH]; simpl; congruence. Qed.

Lemma lower_substring s : forall n m,
  strings.ToLowerASCII (substring n m s) = substring n m (strings.ToLowerASCII s).
Proof.
  induction s as [| c s IH]; intros n m; simpl.
  - destruct n, m; reflexivity.
  - destruct n; [destruct m |]; simpl; try rewrite IH; reflexivity.
Qed.

Lemma lower_digits s : strings.allDigits s = true -> strings.ToLowerASCII s = s.
Proof.
  induction s as [| c s IH]; simpl; intros H; [reflexivity |].
  apply andb_true_iff in H. destruct H as [Hc Hs].
  rewrite (IH Hs). f_equal.
  revert Hc. all_bytes c; vm_compute; congruence.
Qed.

Lemma star_lower p (Hp : forall c, p (strings.lowerByte c) = p c) s :
  forall k k',
    (forall s1, k' (strings.ToLowerASCII s1) = lowerResult (k s1)) ->
    star p (strings.ToLowerASCII s) k' = lowerResult (star p s k).
Proof.
  induction s as [| c s IH]; intros k k' Hk; simpl.
  - apply (Hk EmptyString).
  - rewrite Hp. destruct (p c).
    + rewrite (IH k k' Hk).
      destruct (star p s k); [reflexivity |]. apply (Hk (String c s)).
    + apply (Hk (String c s)).
Qed.

(** Matching the strings.ToLowerASCII-cased input goes the way matching the input goes. *)
Lemma exec_lower r :
  caseStable r ->
  forall s cap k k',
    (forall s1 c1, k' (strings.ToLowerASCII s1) (option_map strings.ToLowerASCII c1) = lowerResult (k s1 c1)) ->
    exec r (strings.ToLowerASCII s) (option_map strings.ToLowerASCII cap) k' = lowerResult (exec r s cap k).
Proof.
  induction r as [| p | r1 IH1 r2 IH2 | r1 IH1 r2 IH2 | r IH | p | r IH];
    intros Hst s cap k k' Hk; simpl in Hst |- *.
  - apply Hk.
  - destruct s as [| c s]; simpl; [reflexivity |].
    rewrite Hst. destruct (p c); [apply Hk | reflexivity].
  - destruct Hst as [H1 H2]. apply IH1; [exact H1 |].
    intros s1 c1. apply IH2; assumption.
  - destruct Hst as [H1 H2].
    rewrite (IH1 H1 s cap k k' Hk).
    destruct (exec r1 s cap k); [reflexivity |]. now apply IH2.
  - rewrite (IH Hst s cap k k' Hk).
    destruct (exec r s cap k); [reflexivity |]. apply Hk.
  - destruct s as [| c s]; simpl; [reflexivity |].
    rewrite Hst. destruct (p c); [| reflexivity].
    apply star_lower; [exact Hst |]. intros s1. apply Hk.
  - apply IH; [exact Hst |]. intros s1 c1.
    rewrite !lower_length.
    rewrite <- lower_substring.
    apply (Hk s1 (Some (substring 0 (String.length s - String.length s1) s))).
Qed.

Lemma matchAt_lower r s :
  caseStable r ->
  matchAt r (strings.ToLowerASCII s) = option_map lowerMatch (matchAt r s).
Proof.
  intros Hst. unfold matchAt.
  pose proof (exec_lower r Hst s None accept accept (fun _ _ => eq_refl)) as E.
  cbn [option_map] in E. rewrite E. clear E.
  destruct (exec r s None accept) as [[rest cap] |];
    simpl; [| reflexivity].
  unfold lowerMatch. simpl.
  rewrite !lower_length, <- lower_substring.
  destruct cap; reflexivity.
Qed.

Lemma findAll_lower r s :
  caseStable r ->
  forall skip, findAll r skip (strings.ToLowerASCII s) = map lowerMatch (findAll r skip s).
Proof.
  intros Hst. induction s as [| c s IH]; intros skip; simpl; [reflexivity |].
  destruct skip; [| apply IH].
  change (String (strings.lowerByte c) (strings.ToLowerASCII s)) with (strings.ToLowerASCII (String c s)).
  rewrite (matchAt_lower r (String c s) Hst).
  destruct (matchAt r (String c s)) as [m |]; simpl; [| apply IH].
  rewrite lower_length, IH. reflexivity.
Qed.

Lemma foldLiteral_stable c0 : caseStable (foldLiteral c0).
Proof.
  unfold foldLiteral, foldsTo, isByte.
  repeat break_match_goal; simpl; repeat split; intros c;
    try (now rewrite lowerByte_idempotent);
    all_bytes c; reflexivity.
Qed.

Lemma foldString_stable s : caseStable (foldString s).
Proof.
  induction s as [| c s IH]; simpl; [exact I |].
  split; [apply foldLiteral_stable | exact IH].
Qed.

Lemma dependOnRegexp_stable : caseStable dependOnRegexp.
Proof.
  unfold dependOnRegexp. cbn [caseStable].
  repeat split; try apply foldString_stable;
    intros c; all_bytes c; reflexivity.
Qed.

End LetterCase.

Lemma convertMatches_groups ms ms' :
  map snd ms = map snd ms' ->
  forall acc, convertMatches ms acc = convertMatches ms' acc.
Proof.
  revert ms'. induction ms as [| m ms IH]; intros [| m' ms'] H acc;
    try discriminate; [reflexivity |].
  simpl in H. inversion H as [[Hm Hms]]. simpl. rewrite Hm.
  destruct (strconv.Atoi (snd m')) as [i [e |]]; [reflexivity |].
  now apply IH.
Qed.

(** Extraction does not depend on the letter case of the body. *)
Lemma ExtractDependencies_lower body :
  ExtractDependencies (strings.ToLowerASCII body) = ExtractDependencies body.
Proof.
  unfold ExtractDependencies, regexp.FindAllStringSubmatch.
  rewrite (findAll_lower dependOnRegexp body dependOnRegexp_stable).
  apply convertMatches_groups.
  pose proof (findAll_captures body O) as Hall.
  induction Hall as [| m ms [_ Hd] _ IH]; simpl; [reflexivity |].
  rewrite IH. f_equal. now apply lower_digits.
Qed.

(** ** Declarations in a body *)

Section Declarations.

Import regexp.

Lemma lowerByte_isASCII c : isASCII (strings.lowerByte c) = isASCII c.
Proof. all_bytes c; reflexivity. Qed.

Lemma isSpace_facts c :
  isSpace c = true ->
  isASCII c = true /\ isDigit c = false /\
  foldsTo "s" c = false /\ foldsTo "e" c = false /\ foldsTo "i" c = false /\
  foldsTo "o" c = false.
Proof. all_bytes c; vm_compute; intros H; try discriminate H; repeat split. Qed.

Lemma isD_facts c :
  isD c = true -> isDigit c = false /\ isSpace c = false.
Proof. all_bytes c; vm_compute; intros H; try discriminate H; repeat split. Qed.

Lemma foldLiteral_hit c0 c rest cap k :
  foldsTo c0 c = true -> isASCII c = true ->
  exec (foldLiteral c0) (String c rest) cap k = k rest cap.
Proof.
  intros Hhit Hascii.
  assert (H197 : isByte "197" c = false).
  { revert Hascii. all_bytes c; vm_compute; congruence. }
  assert (H226 : isByte "226" c = false).
  { revert Hascii. all_bytes c; vm_compute; congruence. }
  unfold foldLiteral.
  repeat break_match_goal; cbn [exec]; rewrite Hhit;
    try rewrite H197; try rewrite H226;
    try reflexivity; destruct (k rest cap); reflexivity.
Qed.

Lemma foldLiteral_miss c0 c rest cap k :
  foldsTo c0 c = false -> isASCII c = true ->
  exec (foldLiteral c0) (String c rest) cap k = None.
Proof.
  intros Hmiss Hascii.
  assert (H197 : isByte "197" c = false).
  { revert Hascii. all_bytes c; vm_compute; congruence. }
  assert (H226 : isByte "226" c = false).
  { revert Hascii. all_bytes c; vm_compute; congruence. }
  unfold foldLiteral.
  repeat break_match_goal; cbn [exec]; rewrite Hmiss;
    try rewrite H197; try rewrite H226; reflexivity.
Qed.

(** A literal under [(?i)] consumes any spelling of itself. *)
Lemma foldString_hit lit :
  strings.allBytes isASCII lit = true ->
  forall x rest cap k,
    strings.ToLowerASCII x = strings.ToLowerASCII lit ->
    exec (foldString lit) (x ++ rest) cap k = k rest cap.
Proof.
  induction lit as [| c0 lit IH]; intros Hascii x rest cap k Hx.
  - destruct x; [reflexivity | discriminate].
  - destruct x as [| c x]; [discriminate |].
    simpl in Hx. inversion Hx as [[Hc Hrest]].
    simpl in Hascii. apply andb_true_iff in Hascii. destruct Hascii as [Ha Hl].
    cbn [foldString]. rewrite exec_Concat. simpl append.
    rewrite foldLiteral_hit.
    + now apply IH.
    + unfold foldsTo. rewrite Hc. apply Ascii.eqb_refl.
    + rewrite <- lowerByte_isASCII, Hc, lowerByte_isASCII. exact Ha.
Qed.

(** A literal under [(?i)] fails on an ASCII byte that is not its first
    letter. *)
Lemma foldString_miss c0 lit c rest cap k :
  foldsTo c0 c = false -> isASCII c = true ->
  exec (foldString (String c0 lit)) (String c rest) cap k = None.
Proof.
  intros Hmiss Hascii. cbn [foldString]. rewrite exec_Concat.
  now apply foldLiteral_miss.
Qed.

Lemma exec_Plus_run p run rest cap k res :
  run <> EmptyString ->
  strings.allBytes p run = true ->
  strings.startsWith p rest = false ->
  k rest cap = Some res ->
  exec (Plus p) (run ++ rest) cap k = Some res.
Proof.
  intros Hne Hrun Hstop Hk.
  destruct run as [| c run]; [congruence |].
  simpl in Hrun. apply andb_true_iff in Hrun. destruct Hrun as [Hc Hrun].
  simpl. rewrite Hc. now apply star_run.
Qed.

Lemma exec_Capture_Plus_run p run rest cap k res :
  run <> EmptyString ->
  strings.allBytes p run = true ->
  strings.startsWith p rest = false ->
  k rest (Some run) = Some res ->
  exec (Capture (Plus p)) (run ++ rest) cap k = Some res.
Proof.
  intros Hne Hrun Hstop Hk.
  cbn [exec].
  apply (exec_Plus_run p run rest cap
           (fun s1 _ =>
              k s1 (Some (substring 0
                            (String.length (run ++ rest) - String.length s1)
                            (run ++ rest)))));
    try assumption.
  now rewrite substring_consumed.
Qed.

Lemma lower_inv_append a :
  forall x b,
    strings.ToLowerASCII x = a ++ b ->
    exists x1 x2,
      x = x1 ++ x2 /\ strings.ToLowerASCII x1 = a /\ strings.ToLowerASCII x2 = b.
Proof.
  induction a as [| c a IH]; intros x b H.
  - exists EmptyString, x. auto.
  - destruct x as [| y x]; [discriminate |].
    simpl in H. inversion H as [[Hc Hrest]].
    destruct (IH x b Hrest) as (x1 & x2 & -> & H1 & H2).
    exists (String y x1), x2. simpl. rewrite H1. auto.
Qed.

Lemma nonEmpty_true s : nonEmpty s = true -> s <> EmptyString.
Proof. destruct s; [discriminate | discriminate]. Qed.

Lemma written_matched d rest :
  written d ++ rest = matched d ++ (trailer d ++ rest).
Proof.
  unfold written, matched. now rewrite !append_assoc.
Qed.

Lemma declares_Declared d : declares d = true -> Declared d.
Proof.
  unfold declares. intros H.
  repeat (apply andb_true_iff in H; destruct H as [H ?]).
  repeat match goal with
         | E : negb _ = true |- _ => apply negb_true_iff in E
         | E : nonEmpty _ = true |- _ => apply nonEmpty_true in E
         end.
  constructor; auto.
  - apply existsb_exists in H. destruct H as (kw & Hin & Heq).
    apply String.eqb_eq in Heq. now rewrite Heq.
  - now apply String.eqb_eq.
  - now apply Z.leb_le.
Qed.

End Declarations.

Section Matching.

Import regexp.

Lemma dependOnRegexp_parts :
  dependOnRegexp
  = Concat (foldString "depend") (Concat (Quest endings) afterKeyword).
Proof. reflexivity. Qed.

Lemma exec_Class_hit p c rest cap k :
  p c = true -> exec (Class p) (String c rest) cap k = k rest cap.
Proof. intros H. simpl. now rewrite H. Qed.

(** From the first gap on, the pattern reads the rest of a declaration and
    captures its digits. *)
Lemma exec_afterKeyword d rest cap :
  Declared d ->
  strings.startsWithDigit rest = false ->
  exec afterKeyword
       (gap1 d ++ on d ++ gap2 d ++ "#" ++ digits d ++ rest) cap accept
  = Some (rest, Some (digits d)).
Proof.
  intros [_ [Hg1 Hs1] Hon [Hg2 Hs2] [Hdn Hd] _ _] Hrest.
  destruct (lower_inv_append "o" (on d) "n:" Hon) as (o & n & Eon & Ho & Hn).
  unfold afterKeyword.
  rewrite exec_Concat.
  apply exec_Plus_run; try assumption.
  { rewrite Eon. destruct o as [| c o]; [discriminate |].
    simpl in Ho. inversion Ho as [[Hc Ho']]. simpl.
    destruct (isSpace c) eqn:Hsp; [| reflexivity].
    apply isSpace_facts in Hsp.
    destruct Hsp as (_ & _ & _ & _ & _ & Hmiss).
    unfold foldsTo in Hmiss. rewrite Hc in Hmiss. discriminate. }
  rewrite exec_Concat.
  rewrite foldString_hit by (reflexivity || assumption).
  rewrite exec_Concat.
  apply exec_Plus_run; try assumption; [reflexivity |].
  rewrite exec_Concat. cbn [append].
  rewrite exec_Class_hit by reflexivity.
  apply exec_Capture_Plus_run; try assumption. reflexivity.
Qed.

(** The optional ending: taken when the keyword has one, skipped before
    white space. *)
Lemma exec_endings_none c rest cap k :
  isSpace c = true ->
  exec (Quest endings) (String c rest) cap k = k (String c rest) cap.
Proof.
  intros Hsp. apply isSpace_facts in Hsp.
  destruct Hsp as (Hascii & _ & Hs & He & Hi & _).
  cbn [exec endings].
  rewrite !foldString_miss by assumption. reflexivity.
Qed.

Lemma exec_endings_some ending x rest cap k res :
  In ending ["s"; "ed"; "ing"] ->
  strings.ToLowerASCII x = ending ->
  k rest cap = Some res ->
  exec (Quest endings) (x ++ rest) cap k = Some res.
Proof.
  intros Hin Hx Hk. cbn [exec endings]. subst ending.
  destruct Hin as [Hx | [Hx | [Hx | []]]]; symmetry in Hx.
  - rewrite (foldString_hit "s") by (reflexivity || assumption).
    now rewrite Hk.
  - destruct x as [| c x]; [discriminate |].
    simpl in Hx. injection Hx as Hc Hx'.
    assert (Hascii : isASCII c = true).
    { rewrite <- lowerByte_isASCII, Hc. reflexivity. }
    change (String c x ++ rest) with (String c (x ++ rest)).
    rewrite (foldString_miss "s") by
      (try assumption; unfold foldsTo; rewrite Hc; reflexivity).
    change (String c (x ++ rest)) with (String c x ++ rest).
    rewrite (foldString_hit "ed") by (reflexivity || (cbn [strings.ToLowerASCII]; rewrite Hc, Hx'; reflexivity)).
    now rewrite Hk.
  - destruct x as [| c x]; [discriminate |].
    simpl in Hx. injection Hx as Hc Hx'.
    assert (Hascii : isASCII c = true).
    { rewrite <- lowerByte_isASCII, Hc. reflexivity. }
    change (String c x ++ rest) with (String c (x ++ rest)).
    rewrite (foldString_miss "s") by
      (try assumption; unfold foldsTo; rewrite Hc; reflexivity).
    rewrite (foldString_miss "e") by
      (try assumption; unfold foldsTo; rewrite Hc; reflexivity).
    change (String c (x ++ rest)) with (String c x ++ rest).
    rewrite (foldString_hit "ing") by (reflexivity || (cbn [strings.ToLowerASCII]; rewrite Hc, Hx'; reflexivity)).
    now rewrite Hk.
Qed.

(** The pattern matches a declaration at the start of the input, up to
    its last digit. *)
Lemma matchAt_declaration d rest :
  Declared d ->
  strings.startsWithDigit rest = false ->
  matchAt dependOnRegexp (matched d ++ rest) = Some (matched d, digits d).
Proof.
  intros Hd Hrest.
  assert (Hexec :
            exec dependOnRegexp (matched d ++ rest) None accept
            = Some (rest, Some (digits d))).
  { pose proof (exec_afterKeyword d rest None Hd Hrest) as Htail.
    destruct Hd as [Hkw [Hg1 Hs1] _ _ _ _ _].
    unfold matched. rewrite !append_assoc.
    rewrite dependOnRegexp_parts, exec_Concat.
    assert (Hsplit :
              exists stem ending lit,
                keyword d = stem ++ ending /\
                strings.ToLowerASCII stem = "depend" /\
                strings.ToLowerASCII ending = lit /\
                (lit = EmptyString \/ In lit ["s"; "ed"; "ing"])).
    { simpl in Hkw.
      destruct Hkw as [H | [H | [H | [H | []]]]]; symmetry in H.
      - destruct (lower_inv_append "depend" _ EmptyString H)
          as (x1 & x2 & ? & ? & ?).
        exists x1, x2, EmptyString. repeat split; auto.
      - destruct (lower_inv_append "depend" _ "s" H) as (x1 & x2 & ? & ? & ?).
        exists x1, x2, "s". repeat split; auto. right. simpl. auto.
      - destruct (lower_inv_append "depend" _ "ed" H) as (x1 & x2 & ? & ? & ?).
        exists x1, x2, "ed". repeat split; auto. right. simpl. auto.
      - destruct (lower_inv_append "depend" _ "ing" H) as (x1 & x2 & ? & ? & ?).
        exists x1, x2, "ing". repeat split; auto. right. simpl. auto. }
    destruct Hsplit as (stem & ending & lit & -> & Hstem & Hending & Hlit).
    rewrite append_assoc.
    rewrite (foldString_hit "depend") by (reflexivity || assumption).
    rewrite exec_Concat.
    destruct Hlit as [-> | Hin].
    - destruct ending; [| discriminate]. simpl append at 1.
      destruct (gap1 d) as [| c g] eqn:Eg; [congruence |].
      simpl in Hs1. apply andb_true_iff in Hs1. destruct Hs1 as [Hc _].
      change (String c g ++ ?x) with (String c (g ++ x)).
      rewrite exec_endings_none by assumption.
      exact Htail.
    - eapply exec_endings_some; eauto. }
  unfold matchAt. rewrite Hexec.
  now rewrite substring_consumed.
Qed.

(** No match starts at a byte that is not a [d]. *)
Lemma matchAt_not_d c s :
  isD c = false -> matchAt dependOnRegexp (String c s) = None.
Proof.
  intros Hc. unfold matchAt.
  rewrite dependOnRegexp_parts, exec_Concat.
  change (foldString "depend")
    with (Concat (Class (foldsTo "d")) (foldString "epend")).
  rewrite exec_Concat. cbn [exec].
  unfold isD in Hc. now rewrite Hc.
Qed.

Lemma findAll_skip r x :
  forall rest, findAll r (String.length x) (x ++ rest) = findAll r O rest.
Proof.
  induction x as [| c x IH]; intros rest; simpl.
  - destruct rest; reflexivity.
  - apply IH.
Qed.

Lemma findAll_no_d pre :
  strings.hasByte isD pre = false ->
  forall rest,
    findAll dependOnRegexp O (pre ++ rest) = findAll dependOnRegexp O rest.
Proof.
  induction pre as [| c pre IH]; intros H rest; [reflexivity |].
  simpl in H. apply orb_false_iff in H. destruct H as [Hc Hpre].
  change (String c pre ++ rest) with (String c (pre ++ rest)).
  cbn [findAll]. rewrite matchAt_not_d by exact Hc.
  now apply IH.
Qed.

Lemma findAll_match r whole group rest :
  whole <> EmptyString ->
  matchAt r (whole ++ rest) = Some (whole, group) ->
  findAll r O (whole ++ rest) = (whole, group) :: findAll r O rest.
Proof.
  intros Hne Hm. destruct whole as [| c whole]; [congruence |].
  change (String c whole ++ rest) with (String c (whole ++ rest)) in *.
  cbn [findAll]. rewrite Hm. cbn [fst].
  replace (String.length (String c whole) - 1)%nat with (String.length whole)
    by (cbn [String.length]; lia).
  now rewrite findAll_skip.
Qed.

Lemma matched_starts d : Declared d -> exists c s, matched d = String c s /\ isD c = true.
Proof.
  intros [Hkw _ _ _ _ _ _]. unfold matched.
  destruct (keyword d) as [| c kw].
  - simpl in Hkw. destruct Hkw as [H | [H | [H | [H | []]]]]; discriminate.
  - exists c. eexists. split; [reflexivity |].
    unfold isD, foldsTo. simpl in Hkw.
    destruct Hkw as [H | [H | [H | [H | []]]]];
      injection H as Hc _; rewrite <- Hc; reflexivity.
Qed.

(** The matches of a body made of declarations, in order. *)
Lemma findAll_declarations ds :
  Forall Declared ds ->
  forall pre,
    strings.hasByte isD pre = false ->
    findAll dependOnRegexp O (pre ++ writtenAll ds)
    = map (fun d => (matched d, digits d)) ds.
Proof.
  induction 1 as [| d ds Hd Hds IH]; intros pre Hpre.
  - rewrite findAll_no_d by exact Hpre. reflexivity.
  - rewrite findAll_no_d by exact Hpre.
    cbn [writtenAll map]. rewrite written_matched.
    destruct (matched_starts d Hd) as (c & s & Hstart & _).
    rewrite (findAll_match dependOnRegexp (matched d) (digits d)).
    + f_equal. apply IH. now destruct Hd as [_ _ _ _ _ _ [_ ?]].
    + rewrite Hstart. discriminate.
    + apply matchAt_declaration; [exact Hd |].
      destruct Hd as [_ _ _ _ _ _ [Htr _]].
      destruct (trailer d) as [| t tr]; [| exact Htr].
      simpl append.
      destruct Hds as [| d' ds' Hd' _]; [reflexivity |].
      cbn [writtenAll]. rewrite written_matched.
      destruct (matched_starts d' Hd') as (c' & s' & -> & Hc').
      simpl. now apply isD_facts in Hc'.
Qed.

(** Extraction on such a body returns the numbers declared, in order and
    with repetitions. *)
Lemma ExtractDependencies_declarations preamble ds :
  strings.hasByte isD preamble = false ->
  forallb declares ds = true ->
  ExtractDependencies (preamble ++ writtenAll ds) = Ret (map referenceOf ds).
Proof.
  intros Hpre Hall.
  assert (Hds : Forall Declared ds).
  { apply Forall_forall. intros d Hin. apply declares_Declared.
    rewrite forallb_forall in Hall. now apply Hall. }
  unfold ExtractDependencies, FindAllStringSubmatch.
  rewrite (findAll_declarations ds Hds preamble Hpre).
  rewrite convertMatches_digits.
  - replace (find overflows (map (fun d => (matched d, digits d)) ds))
      with (@None (string * string)).
    + simpl. now rewrite map_map.
    + symmetry. clear Hall Hpre. induction Hds as [| d ds Hd _ IH]; [reflexivity |].
      simpl. unfold overflows at 1, captured. simpl.
      destruct Hd as [_ _ _ _ _ Hfit _].
      destruct (Z.ltb_spec strconv.MaxInt (strconv.decimal (digits d))); [lia |].
      exact IH.
  - clear Hall Hpre. induction Hds as [| d ds Hd _ IH]; constructor; [| exact IH].
    simpl. now destruct Hd as [_ _ _ _ Hdig _ _].
Qed.

End Matching.

(** ** The claims about dependency extraction *)

(** Group 1 of every match is a non-empty string of ASCII digits;
    [strconv.Atoi] returns its value when that is at most [2^63 - 1] and a
    range error otherwise; so extraction returns the values of all the
    captures when each fits an [int] and panics with the range error of the
    first one that does not. *)
Lemma ExtractDependencies_overflow :
  forall body,
    let matches := regexp.FindAllStringSubmatch dependOnRegexp body in
    Forall (fun m =>
              snd m <> EmptyString /\
              strings.allDigits (snd m) = true /\
              strconv.Atoi (snd m)
              = if overflows m
                then (strconv.MaxInt, Some (NumError "Atoi" (snd m) ErrRange))
                else (captured m, None))
           matches /\
    ExtractDependencies body
    = match find overflows matches with
      | Some m => Panic (PanicError (NumError "Atoi" (snd m) ErrRange))
      | None => Ret (map captured matches)
      end.
Proof.
  intros body matches.
  pose proof (findAll_captures body O) as Hall.
  fold (regexp.FindAllStringSubmatch dependOnRegexp body) in Hall.
  fold matches in Hall.
  split.
  - eapply Forall_impl; [| exact Hall].
    intros m [Hne Hd]. split; [exact Hne |]. split; [exact Hd |].
    rewrite (Atoi_digits (snd m) Hne Hd).
    unfold overflows, captured.
    destruct (Z.leb_spec (strconv.decimal (snd m)) strconv.MaxInt);
      destruct (Z.ltb_spec strconv.MaxInt (strconv.decimal (snd m)));
      try lia; reflexivity.
  - unfold ExtractDependencies. fold matches.
    now rewrite (convertMatches_digits matches Hall []).
Qed.

(** C4, on the code: for a reference one past the largest [int] the pattern
    accepts the digits, [strconv.Atoi] reports a range error and the closure
    panics with it; the round of that request panics and the loop with it. *)
Lemma C4_overflowing_reference_panics :
  snd (strconv.Atoi "9223372036854775808")
  = Some (NumError "Atoi" "9223372036854775808" ErrRange) /\
  ExtractDependencies "Depends on: #9223372036854775808"
  = Panic (PanicError (NumError "Atoi" "9223372036854775808" ErrRange)) /\
  fst (processPullRequests
         (Script.world Script.clean) "main" None
         [Script.request 10 "Depends on: #9223372036854775808" "OPEN" EmptyString;
          Script.request 11 "Fixes a typo" "OPEN" EmptyString]
         [] [])
  = Panic (PanicError (NumError "Atoi" "9223372036854775808" ErrRange)).
Proof.
  repeat split; vm_compute; reflexivity.
Qed.

(** C1, amended: extraction does not depend on the ASCII letter case of
    the body, and on a body made of declarations - a keyword among depend,
    depends, depended, depending in any letter case, white space, [on:] with
    its colon, white space, [#] and digits - it returns the declared numbers
    in order of appearance, repeated ones included. *)
Theorem C1_extraction_reads_declarations_with_colon :
  (forall body,
      ExtractDependencies (strings.ToLowerASCII body) = ExtractDependencies body) /\
  (forall preamble ds,
      strings.hasByte isD preamble = false ->
      forallb declares ds = true ->
      ExtractDependencies (preamble ++ writtenAll ds) = Ret (map referenceOf ds)).
Proof.
  split.
  - apply ExtractDependencies_lower.
  - apply ExtractDependencies_declarations.
Qed.

Lemma C1_witness :
  ExtractDependencies (strings.ToLowerASCII "Depends On: #123")
  = ExtractDependencies "Depends On: #123" /\
  ExtractDependencies ("This change " ++ writtenAll sampleDeclarations)
  = Ret [123; 45; 123; 7].
Proof.
  split.
  - apply (proj1 C1_extraction_reads_declarations_with_colon).
  - apply (proj2 C1_extraction_reads_declarations_with_colon
                 "This change " sampleDeclarations);
      vm_compute; reflexivity.
Defined.

(** The phrases without the colon, as the claim writes them: none is
    matched. *)
Lemma C1_counterexample :
  ExtractDependencies "Depends on #123" = Ret [] /\
  ExtractDependencies "depended on #123" = Ret [] /\
  ExtractDependencies "depending on #123" = Ret [] /\
  ExtractDependencies "DEPEND ON #123" = Ret [] /\
  ExtractDependencies "Depends on: #123" = Ret [123].
Proof.
  repeat split; vm_compute; reflexivity.
Qed.

(** * More of the program *)

(** ** One round of the loop, step by step *)

Lemma CheckoutToPullRequest_nil w number l l' :
  CheckoutToPullRequest w number l = (Ret None, l') ->
  exists ghPath,
    LookPath w l "gh" = inl ghPath /\
    err (run w l (checkoutCommand ghPath number)) = None /\
    l' = (l ++ [Exec (checkoutCommand ghPath number)])%list.
Proof.
  unfold CheckoutToPullRequest, checkoutCommand. unfold_run.
  destruct (LookPath w l "gh") as [ghPath | e]; [| discriminate].
  destruct (err (run w l _)) eqn:Herr; [discriminate |].
  intros H. inversion H. exists ghPath. auto.
Qed.

Lemma RebaseOntoPullRequest_nil w targetBase oldParent topicBranch l l' :
  RebaseOntoPullRequest w targetBase oldParent topicBranch l = (Ret None, l') ->
  exists gitPath,
    LookPath w l "git" = inl gitPath /\
    err (run w l (rebaseCommand gitPath targetBase oldParent topicBranch)) = None /\
    l' = (l ++ [Exec (rebaseCommand gitPath targetBase oldParent topicBranch)])%list.
Proof.
  intros H.
  destruct (LookPath w l "git") as [gitPath | e] eqn:Hlook.
  - destruct (err (run w l (rebaseCommand gitPath targetBase oldParent topicBranch)))
      as [e |] eqn:Herr.
    + rewrite (RebaseOntoPullRequest_failure w _ _ _ l gitPath e Hlook Herr) in H.
      repeat break_match_hyp H; discriminate.
    + exists gitPath. split; [reflexivity |]. split; [exact Herr |].
      unfold RebaseOntoPullRequest, rebaseCommand in *. unfold_run.
      rewrite Hlook, Herr in H. now inversion H.
  - unfold RebaseOntoPullRequest in H. unfold_run.
    rewrite Hlook in H. discriminate.
Qed.

(** X1: an outcome with a nil error comes from a round that extracted one
    reference, fetched it in the merged state, and then started exactly the
    lookup, the checkout of the request and the rebase of its head branch
    onto [origin/<default branch>] from the dependency's merge commit, the
    last two exiting normally; no abort ran. *)
Theorem rebased_outcome_ran_checkout_and_rebase :
  forall w defaultBranch err0 pr l p l',
    processPullRequest w defaultBranch err0 pr l = (Ret p, l') ->
    Error p = None ->
    exists dependOn depended ghPath gitPath,
      ExtractDependencies (Body pr) = Ret [dependOn] /\
      DependOns p = [dependOn] /\
      DependedPullRequest p = Some depended /\
      State depended = "MERGED" /\
      let l1 := (l ++ [lookupOf dependOn])%list in
      let l2 := (l1 ++ [Exec (checkoutCommand ghPath (Number pr))])%list in
      let rebase :=
        rebaseCommand gitPath ("origin/" ++ defaultBranch)
                      (MergeCommitOid depended) (HeadRefName pr) in
      err (run w l1 (checkoutCommand ghPath (Number pr))) = None /\
      err (run w l2 rebase) = None /\
      l' = (l2 ++ [Exec rebase])%list.
Proof.
  intros w defaultBranch err0 pr l p l'.
  unfold processPullRequest.
  destruct (ExtractDependencies (Body pr)) as [dependOns | pv]; [| discriminate].
  destruct err0 as [e |]; [discriminate |].
  destruct dependOns as [| dependOn [| b rest]]; simpl;
    try (unfold ret, failed; intros H; inversion H; subst; discriminate).
  unfold bind at 1.
  pose proof (GetPullRequest_log w dependOn l) as Hlog.
  destruct (GetPullRequest w dependOn l) as [[[[depended |] [e |]] | pv] l1] eqn:Hget;
    simpl in Hlog; subst l1;
    try (unfold ret, panic, failed; intros H; inversion H; subst; discriminate).
  destruct (String.eqb (State depended) "MERGED") eqn:Hstate; cbn [negb];
    [| unfold ret, failed; intros H; inversion H; subst; discriminate].
  unfold bind at 1.
  destruct (CheckoutToPullRequest w (Number pr) (l ++ [lookupOf dependOn])%list)
    as [[[e |] | pv] l2] eqn:Hco;
    try (unfold ret, failed; intros H; inversion H; subst; discriminate).
  apply CheckoutToPullRequest_nil in Hco.
  destruct Hco as (ghPath & _ & Hcoerr & ->).
  unfold bind at 1.
  match goal with
  | |- context [RebaseOntoPullRequest w ?tb ?op ?tp ?l0] =>
      destruct (RebaseOntoPullRequest w tb op tp l0) as [[[e |] | pv] l3] eqn:Hrb
  end;
    try (unfold ret, failed; intros H; inversion H; subst; discriminate).
  apply RebaseOntoPullRequest_nil in Hrb.
  destruct Hrb as (gitPath & _ & Hrberr & ->).
  unfold ret. intros H _. inversion H; subst; clear H.
  exists dependOn, depended, ghPath, gitPath. simpl.
  repeat split; try assumption. now apply String.eqb_eq.
Qed.

Lemma rebased_outcome_witness :
  let w := Script.world Script.clean in
  let pr := Script.request 10 "Depends on: #123" "OPEN" EmptyString in
  let p := {| Embedded := pr; DependOns := [123];
              DependedPullRequest := Some (Script.depended Script.clean);
              Error := None |} in
  exists dependOn depended ghPath gitPath,
    ExtractDependencies (Body pr) = Ret [dependOn] /\
    DependOns p = [dependOn] /\
    DependedPullRequest p = Some depended /\
    State depended = "MERGED" /\
    let l1 := ([] ++ [lookupOf dependOn])%list in
    let l2 := (l1 ++ [Exec (checkoutCommand ghPath (Number pr))])%list in
    let rebase :=
      rebaseCommand gitPath ("origin/" ++ "main")
                    (MergeCommitOid depended) (HeadRefName pr) in
    err (run w l1 (checkoutCommand ghPath (Number pr))) = None /\
    err (run w l2 rebase) = None /\
    [lookupOf 123; Exec (checkoutCommand "/usr/bin/gh" 10);
     Exec (rebaseCommand "/usr/bin/git" "origin/main" Script.oid "topic-10")]
    = (l2 ++ [Exec rebase])%list.
Proof.
  intros w pr p.
  apply (rebased_outcome_ran_checkout_and_rebase w "main" None pr [] p).
  - vm_compute. reflexivity.
  - reflexivity.
Defined.
(** ** Rounds that return *)

Lemma fits_extracts body :
  fits body = true -> exists dependOns, ExtractDependencies body = Ret dependOns.
Proof.
  unfold fits. intros H.
  destruct (ExtractDependencies_overflow body) as [_ E]. rewrite E.
  destruct (find overflows _); [discriminate | eauto].
Qed.

Lemma GetPullRequest_returns w number l :
  quietLookups w ->
  exists found e,
    GetPullRequest w number l = (Ret (found, e), (l ++ [lookupOf number])%list) /\
    ((found = None /\ e <> None) \/
     (e = None /\
      exists depended text,
        found = Some depended /\ unmarshalPullRequest w text = inl depended)).
Proof.
  intros Hquiet. specialize (Hquiet l number).
  unfold GetPullRequest, lookupOf, viewCommand in *. unfold_run.
  destruct (err (run w l _)) as [e |] eqn:Herr.
  - eexists. eexists. split; [reflexivity |]. left. split; congruence.
  - rewrite (Hquiet eq_refl). cbn [nonEmpty String.length Nat.ltb Nat.leb].
    destruct (unmarshalPullRequest w _) as [depended | e] eqn:Hjson.
    + eexists. eexists. split; [reflexivity |]. right. split; [reflexivity |].
      eauto.
    + eexists. eexists. split; [reflexivity |]. left. split; congruence.
Qed.

Lemma CheckoutToPullRequest_returns w number l :
  exists e l', CheckoutToPullRequest w number l = (Ret e, l').
Proof.
  unfold CheckoutToPullRequest. unfold_run.
  destruct (LookPath w l "gh"); [| eauto].
  destruct (err (run w l _)); eauto.
Qed.

Lemma RebaseOntoPullRequest_returns w targetBase oldParent topicBranch l :
  (7 <= String.length oldParent)%nat ->
  exists e l',
    RebaseOntoPullRequest w targetBase oldParent topicBranch l = (Ret e, l').
Proof.
  intros Hlen.
  destruct (LookPath w l "git") as [gitPath | e] eqn:Hlook.
  - destruct (err (run w l (rebaseCommand gitPath targetBase oldParent topicBranch)))
      as [e |] eqn:Herr.
    + rewrite (RebaseOntoPullRequest_failure w _ _ _ l gitPath e Hlook Herr).
      apply Nat.leb_le in Hlen. rewrite Hlen.
      destruct (strings.Contains _ _); eauto.
    + unfold RebaseOntoPullRequest, rebaseCommand in *. unfold_run.
      rewrite Hlook, Herr. eauto.
  - unfold RebaseOntoPullRequest. unfold_run. rewrite Hlook. eauto.
Qed.

Lemma processPullRequest_returns w defaultBranch pr l :
  quietLookups w -> fullCommitIds w -> fits (Body pr) = true ->
  exists p l', processPullRequest w defaultBranch None pr l = (Ret p, l').
Proof.
  intros Hquiet Hfull Hfits.
  destruct (fits_extracts _ Hfits) as [dependOns Hrefs].
  unfold processPullRequest. rewrite Hrefs.
  destruct dependOns as [| dependOn [| b rest]]; simpl;
    try (unfold ret; eauto; fail).
  unfold bind at 1.
  destruct (GetPullRequest_returns w dependOn l Hquiet)
    as (found & e & -> & [[-> He] | [-> (depended & text & -> & Hjson)]]).
  - destruct e; [| congruence]. unfold ret. eauto.
  - destruct (String.eqb (State depended) "MERGED") eqn:Hstate; cbn [negb];
      [| unfold ret; eauto].
    apply String.eqb_eq in Hstate.
    unfold bind at 1.
    destruct (CheckoutToPullRequest_returns w (Number pr)
                (l ++ [lookupOf dependOn])%list) as (e & l2 & ->).
    destruct e; [unfold ret; eauto |].
    unfold bind at 1.
    match goal with
    | |- context [RebaseOntoPullRequest w ?tb ?op ?tp ?l0] =>
        destruct (RebaseOntoPullRequest_returns w tb op tp l0
                    (Hfull text depended Hjson Hstate)) as (e & l3 & ->)
    end.
    destruct e; unfold ret; eauto.
Qed.

Lemma processPullRequests_returns w defaultBranch pullRequests :
  quietLookups w -> fullCommitIds w ->
  forallb (fun pr => fits (Body pr)) pullRequests = true ->
  forall acc l,
    exists processed l',
      processPullRequests w defaultBranch None pullRequests acc l
      = (Ret processed, l').
Proof.
  intros Hquiet Hfull.
  induction pullRequests as [| pr rest IH]; intros Hfits acc l; simpl.
  - unfold ret. eauto.
  - simpl in Hfits. apply andb_true_iff in Hfits. destruct Hfits as [Hpr Hrest].
    unfold bind.
    destruct (processPullRequest_returns w defaultBranch pr l Hquiet Hfull Hpr)
      as (p & l1 & ->).
    apply IH. exact Hrest.
Qed.

(** X2: when every lookup that exits normally leaves the diagnostic stream
    empty, every merged request comes with at least seven bytes of commit
    id, and no body holds a reference above [2^63 - 1], the loop returns:
    one outcome per request, in fetch order. *)
Theorem loop_returns :
  forall w defaultBranch pullRequests l,
    quietLookups w -> fullCommitIds w ->
    forallb (fun pr => fits (Body pr)) pullRequests = true ->
    exists processed l',
      processPullRequests w defaultBranch None pullRequests [] l
      = (Ret processed, l') /\
      map Embedded processed = pullRequests.
Proof.
  intros w defaultBranch pullRequests l Hquiet Hfull Hfits.
  destruct (processPullRequests_returns
              w defaultBranch pullRequests Hquiet Hfull Hfits [] l)
    as (processed & l' & E).
  exists processed, l'. split; [exact E |].
  apply processPullRequests_outcomes in E.
  destruct E as (fresh & -> & Hmap & _). exact Hmap.
Qed.

Lemma loop_returns_witness :
  exists processed l',
    processPullRequests (Script.world Script.clean) "main" None
                        (Script.listed Script.clean) [] []
    = (Ret processed, l') /\
    map Embedded processed = Script.listed Script.clean.
Proof.
  apply (loop_returns (Script.world Script.clean) "main"
                      (Script.listed Script.clean) []).
  - unfold quietLookups. intros l number _. reflexivity.
  - unfold fullCommitIds. intros text depended H _.
    vm_compute in H. inversion H; subst. vm_compute. lia.
  - vm_compute. reflexivity.
Defined.

(** ** The loop over a list in two parts *)

(** ** What the reporter prints *)

Lemma forEach_reportRebased_log w processed :
  Forall printable processed ->
  forall l,
    forEach (reportRebased w) processed l
    = (Ret tt, (l ++ flat_map (rebasedSection w) processed)%list).
Proof.
  induction 1 as [| p rest Hp _ IH]; intros l; simpl.
  - unfold ret. now rewrite app_nil_r.
  - unfold bind at 1. unfold reportRebased, rebasedSection.
    unfold printable in Hp.
    destruct (Error p) eqn:E.
    + unfold ret. rewrite IH. reflexivity.
    + destruct (DependedPullRequest p) eqn:D; [| exfalso; now apply Hp].
      unfold_run. rewrite IH. rewrite <- !app_assoc. reflexivity.
Qed.

Lemma forEach_reportNotRebased_log w processed :
  forall l,
    forEach (reportNotRebased w) processed l
    = (Ret tt, (l ++ flat_map (notRebasedSection w) processed)%list).
Proof.
  induction processed as [| p rest IH]; intros l; simpl.
  - unfold ret. now rewrite app_nil_r.
  - unfold bind at 1. unfold reportNotRebased, notRebasedSection.
    destruct (Error p) as [e |].
    + destruct (IsErrNoDependOn e); unfold_run; rewrite IH;
        rewrite <- !app_assoc; reflexivity.
    + unfold ret. rewrite IH. reflexivity.
Qed.

(** X4: on outcomes whose successes carry their dependency, the reporter
    prints its first two lines, then three lines for each outcome with a nil
    error, then the second heading, then three lines for each outcome with
    an error, both groups in the order of the list; every outcome is
    printed in exactly one of the two groups. *)
Theorem report_partitions_outcomes :
  forall w processed l,
    Forall printable processed ->
    report w processed l
    = (Ret tt,
       (l ++ reportHeader w
          ++ flat_map (rebasedSection w) processed
          ++ notRebasedHeader w
          ++ flat_map (notRebasedSection w) processed)%list) /\
    Forall (fun p =>
              (List.length (rebasedSection w p) = 3%nat /\
               notRebasedSection w p = []) \/
              (rebasedSection w p = [] /\
               List.length (notRebasedSection w p) = 3%nat))
           processed.
Proof.
  intros w processed l Hall. split.
  - unfold report, reportHeader, notRebasedHeader.
    unfold bind at 1. unfold print at 1.
    unfold bind at 1. unfold print at 1.
    unfold bind at 1. rewrite (forEach_reportRebased_log w processed Hall).
    unfold bind at 1. unfold print at 1.
    rewrite forEach_reportNotRebased_log.
    rewrite <- !app_assoc. reflexivity.
  - eapply Forall_impl; [| exact Hall].
    intros p Hp. unfold printable in Hp.
    unfold rebasedSection, notRebasedSection.
    destruct (Error p) eqn:E.
    + right. split; reflexivity.
    + destruct (DependedPullRequest p) eqn:D; [| exfalso; now apply Hp].
      left. split; reflexivity.
Qed.

Lemma report_partitions_witness :
  let w := Script.world Script.clean in
  let pr := Script.request 10 "Depends on: #123" "OPEN" EmptyString in
  let processed :=
    [ {| Embedded := pr; DependOns := [123];
         DependedPullRequest := Some (Script.depended Script.clean);
         Error := None |};
      failed (Script.request 11 "Fixes a typo" "OPEN" EmptyString) []
             ErrNoDependOn ] in
  report w processed []
  = (Ret tt,
     ([] ++ reportHeader w
         ++ flat_map (rebasedSection w) processed
         ++ notRebasedHeader w
         ++ flat_map (notRebasedSection w) processed)%list) /\
  Forall (fun p =>
            (List.length (rebasedSection w p) = 3%nat /\
             notRebasedSection w p = []) \/
            (rebasedSection w p = [] /\
             List.length (notRebasedSection w p) = 3%nat))
         processed.
Proof.
  intros w pr processed.
  apply (report_partitions_outcomes w processed []).
  repeat constructor; unfold printable; simpl; discriminate.
Defined.

(** X5: the reporter ends in a nil dereference exactly on a list that holds
    an outcome with a nil error and no dependency; on every other list it
    returns. *)
Theorem report_panics_only_on_missing_dependency :
  forall w processed l,
    (exists l', report w processed l = (Ret tt, l')) <->
    Forall printable processed.
Proof.
  intros w processed l. split.
  - intros [l' H]. unfold report in H.
    unfold bind at 1 in H. unfold print at 1 in H.
    unfold bind at 1 in H. unfold print at 1 in H.
    unfold bind at 1 in H.
    match type of H with
    | context [forEach (reportRebased w) processed ?l0] =>
        remember l0 as start eqn:Hstart; clear Hstart
    end.
    destruct (forEach (reportRebased w) processed start) as [[[] | pv] l1] eqn:E;
      [clear H | discriminate].
    revert start l1 E.
    induction processed as [| p rest IH]; intros start l1 E; [constructor |].
    simpl in E. unfold bind at 1 in E.
    destruct (reportRebased w p start) as [[[] | pv] l2] eqn:Ep; [| discriminate].
    constructor; [| eapply IH; eauto].
    unfold printable. intros Hnil Hdep.
    unfold reportRebased in Ep. rewrite Hnil, Hdep in Ep.
    unfold_run. discriminate.
  - intros Hall.
    destruct (report_returns w processed) with (l := l) as [l1 H]; [| eauto].
    exact Hall.
Qed.
(** ** The sentinel and the soft presentation *)

Lemma GetPullRequest_error_foreign w number l found e l' :
  foreignErrors w ->
  GetPullRequest w number l = (Ret (found, Some e), l') ->
  IsErrNoDependOn e = false.
Proof.
  intros (Hrun & _ & Hjson).
  unfold GetPullRequest. unfold_run.
  destruct (err (run w l _)) as [e0 |] eqn:Herr.
  - intros H. inversion H; subst. eapply Hrun; eauto.
  - destruct (nonEmpty _); [discriminate |].
    destruct (unmarshalPullRequest w _) as [d | e0] eqn:Hj; [discriminate |].
    intros H. inversion H; subst. eapply Hjson; eauto.
Qed.

Lemma CheckoutToPullRequest_error_foreign w number l e l' :
  foreignErrors w ->
  CheckoutToPullRequest w number l = (Ret (Some e), l') ->
  IsErrNoDependOn e = false.
Proof.
  intros (Hrun & Hlook & _).
  unfold CheckoutToPullRequest. unfold_run.
  destruct (LookPath w l "gh") as [ghPath | e0] eqn:Hl.
  - destruct (err (run w l _)) as [e0 |] eqn:Herr; [| discriminate].
    intros H. inversion H; subst. simpl. eapply Hrun; eauto.
  - intros H. inversion H; subst. eapply Hlook; eauto.
Qed.

Lemma RebaseOntoPullRequest_error_foreign w targetBase oldParent topicBranch l e l' :
  foreignErrors w ->
  RebaseOntoPullRequest w targetBase oldParent topicBranch l = (Ret (Some e), l') ->
  IsErrNoDependOn e = false.
Proof.
  intros (Hrun & Hlook & _) H.
  destruct (LookPath w l "git") as [gitPath | e0] eqn:Hl.
  - destruct (err (run w l (rebaseCommand gitPath targetBase oldParent topicBranch)))
      as [e0 |] eqn:Herr.
    + rewrite (RebaseOntoPullRequest_failure w _ _ _ l gitPath e0 Hl Herr) in H.
      destruct (strings.Contains _ _).
      * destruct (7 <=? String.length oldParent)%nat; [| discriminate].
        inversion H; subst. reflexivity.
      * inversion H; subst. simpl. eapply Hrun; eauto.
    + unfold RebaseOntoPullRequest, rebaseCommand in *. unfold_run.
      rewrite Hl, Herr in H. discriminate.
  - unfold RebaseOntoPullRequest in H. unfold_run. rewrite Hl in H.
    inversion H; subst. eapply Hlook; eauto.
Qed.

(** X6: when no collaborator hands back the sentinel [ErrNoDependOn], the
    error of an outcome satisfies [errors.Is(err, ErrNoDependOn)] - the test
    that selects the soft presentation - exactly when no reference was
    extracted from the body of the request. *)
Theorem soft_presentation_iff_no_reference :
  forall w defaultBranch err0 pr l p l' e,
    foreignErrors w ->
    processPullRequest w defaultBranch err0 pr l = (Ret p, l') ->
    Error p = Some e ->
    (IsErrNoDependOn e = true <-> ExtractDependencies (Body pr) = Ret []).
Proof.
  intros w defaultBranch err0 pr l p l' e Hforeign.
  unfold processPullRequest.
  destruct (ExtractDependencies (Body pr)) as [dependOns | pv]; [| discriminate].
  destruct err0 as [e0 |]; [discriminate |].
  destruct dependOns as [| dependOn [| b rest]]; simpl.
  - unfold ret, failed. intros H He. inversion H; subst. simpl in He.
    inversion He; subst. split; reflexivity.
  - unfold bind at 1.
    destruct (GetPullRequest w dependOn l) as [[[found [e1 |]] | pv] l1] eqn:Hget;
      [| | discriminate].
    + unfold ret, failed. intros H He. inversion H; subst. simpl in He.
      inversion He; subst. simpl.
      rewrite (GetPullRequest_error_foreign _ _ _ _ _ _ Hforeign Hget).
      split; discriminate.
    + destruct found as [depended |]; [| discriminate].
      destruct (negb (String.eqb (State depended) "MERGED")).
      * unfold ret, failed. intros H He. inversion H; subst. simpl in He.
        inversion He; subst. split; discriminate.
      * unfold bind at 1.
        destruct (CheckoutToPullRequest w (Number pr) l1)
          as [[[e1 |] | pv] l2] eqn:Hco; [| | discriminate].
        -- unfold ret, failed. intros H He. inversion H; subst. simpl in He.
           inversion He; subst. simpl.
           rewrite (CheckoutToPullRequest_error_foreign _ _ _ _ _ Hforeign Hco).
           split; discriminate.
        -- unfold bind at 1.
           match goal with
           | |- context [RebaseOntoPullRequest w ?tb ?op ?tp ?l0] =>
               destruct (RebaseOntoPullRequest w tb op tp l0)
                 as [[[e1 |] | pv] l3] eqn:Hrb
           end; [| | discriminate].
           ++ unfold ret, failed. intros H He. inversion H; subst. simpl in He.
              inversion He; subst. simpl.
              rewrite (RebaseOntoPullRequest_error_foreign
                         _ _ _ _ _ _ _ Hforeign Hrb).
              split; discriminate.
           ++ unfold ret. intros H He. inversion H; subst. discriminate.
  - unfold ret, failed. intros H He. inversion H; subst. simpl in He.
    inversion He; subst. split; discriminate.
Qed.

Lemma soft_presentation_witness :
  let w := Script.world Script.clean in
  let pr := Script.request 11 "Fixes a typo" "OPEN" EmptyString in
  IsErrNoDependOn ErrNoDependOn = true <-> ExtractDependencies (Body pr) = Ret [].
Proof.
  intros w pr.
  apply (soft_presentation_iff_no_reference
           w "main" None pr [] (failed pr [] ErrNoDependOn) [] ErrNoDependOn).
  - unfold foreignErrors. repeat split.
    + intros l c e H. cbn in H.
      repeat break_match_hyp H; discriminate.
    + intros l file e H. discriminate.
    + intros text e H. discriminate.
  - vm_compute. reflexivity.
  - reflexivity.
Defined.

(** ** The abort *)

(** X7: [RebaseOntoPullRequest] starts the abort exactly when [git] was
    found and the rebase command failed, and returns a nil error exactly
    when [git] was found and the rebase command exited normally. *)
Theorem abort_runs_iff_rebase_failed :
  forall w targetBase oldParent topicBranch l,
    let out := RebaseOntoPullRequest w targetBase oldParent topicBranch l in
    let failedRebase :=
      exists gitPath e,
        LookPath w l "git" = inl gitPath /\
        err (run w l (rebaseCommand gitPath targetBase oldParent topicBranch))
        = Some e in
    let cleanRebase :=
      exists gitPath,
        LookPath w l "git" = inl gitPath /\
        err (run w l (rebaseCommand gitPath targetBase oldParent topicBranch))
        = None in
    (existsb isAbort (added l (snd out)) = true <-> failedRebase) /\
    (fst out = Ret None <-> cleanRebase).
Proof.
  intros w targetBase oldParent topicBranch l out failedRebase cleanRebase.
  subst out failedRebase cleanRebase.
  destruct (LookPath w l "git") as [gitPath | e0] eqn:Hl.
  - destruct (err (run w l (rebaseCommand gitPath targetBase oldParent topicBranch)))
      as [e |] eqn:Herr.
    + rewrite (RebaseOntoPullRequest_failure w _ _ _ l gitPath e Hl Herr).
      cbn [fst snd]. rewrite added_app. split; split.
      * intros _. exists gitPath, e. auto.
      * intros _. reflexivity.
      * intros H. repeat break_match_hyp H; discriminate.
      * intros (g & Hg & Hnone). inversion Hg; subst. congruence.
    + assert (E : RebaseOntoPullRequest w targetBase oldParent topicBranch l
                  = (Ret None,
                     (l ++ [Exec (rebaseCommand gitPath targetBase oldParent
                                                topicBranch)])%list)).
      { unfold RebaseOntoPullRequest, rebaseCommand in *. unfold_run.
        rewrite Hl, Herr. reflexivity. }
      rewrite E. cbn [fst snd]. rewrite added_app. split; split.
      * intros H. discriminate.
      * intros (g & e & Hg & He). inversion Hg; subst. congruence.
      * intros _. exists gitPath. auto.
      * intros _. reflexivity.
  - assert (E : RebaseOntoPullRequest w targetBase oldParent topicBranch l
                = (Ret (Some e0), l)).
    { unfold RebaseOntoPullRequest. unfold_run. rewrite Hl. reflexivity. }
    rewrite E. cbn [fst snd]. rewrite added_refl. split; split.
    + intros H. discriminate.
    + intros (g & e & Hg & _). discriminate.
    + intros H. discriminate.
    + intros (g & Hg & _). discriminate.
Qed.
(** ** [main], from the start *)

(** Either [main] stops during its setup, having started no process for any
    request, or the setup went through and [main] is the loop followed by
    the report. *)
Lemma main_cases w :
  (exists l, main w [] = (Ret tt, l) /\ existsb perRequest l = false) \/
  (exists defaultBranch pullRequests l,
      setUp w defaultBranch pullRequests l /\
      existsb perRequest l = false /\
      main w []
      = bind (processPullRequests w defaultBranch None pullRequests [])
             (report w) (l ++ fetchedLines w pullRequests)%list).
Proof.
  unfold main, setUp.
  unfold bind at 1.
  unfold IsCurrentBranchDirty, statusCommand. unfold_run.
  destruct (LookPath w [] "git") as [gitPath | e] eqn:Hlook;
    [| left; eexists; split; reflexivity].
  destruct (err (run w [] (Cmd gitPath ["status"; "--porcelain"] []))) as [e |] eqn:Hst;
    [left; eexists; split; reflexivity |].
  destruct (nonEmpty (stdout (run w [] (Cmd gitPath ["status"; "--porcelain"] []))))
    eqn:Hout; [left; eexists; split; reflexivity |].
  cbn [app].
  remember [Exec (Cmd gitPath ["status"; "--porcelain"] [])] as l1 eqn:Hl1.
  destruct (GetDefaultBranch w l1) as [[[defaultBranch e] | pv] l2] eqn:Hdb.
  2:{ exfalso. unfold GetDefaultBranch in Hdb. unfold_run.
      repeat break_match_hyp Hdb; discriminate. }
  assert (Hl2 : l2 = (l1 ++ [Exec repoViewCommand])%list).
  { unfold GetDefaultBranch, repoViewCommand in *. unfold_run.
    repeat break_match_hyp Hdb; inversion Hdb; reflexivity. }
  destruct e as [e |];
    [left; eexists; split; [reflexivity | subst; reflexivity] |].
  destruct (FetchOriginBranch w defaultBranch l2) as [[e | pv] l3] eqn:Hfetch.
  2:{ exfalso. unfold FetchOriginBranch in Hfetch. unfold_run.
      repeat break_match_hyp Hfetch; discriminate. }
  assert (Hl3 : existsb perRequest l3 = false).
  { unfold FetchOriginBranch in Hfetch. unfold_run.
    repeat break_match_hyp Hfetch; inversion Hfetch; subst;
      rewrite ?existsb_app; reflexivity. }
  destruct e as [e |].
  { left. eexists. split; [reflexivity |].
    rewrite existsb_app, Hl3. reflexivity. }
  destruct (ListPullRequests w l3) as [[[pullRequests e] | pv] l4] eqn:Hlist.
  2:{ exfalso. unfold ListPullRequests in Hlist. unfold_run.
      repeat break_match_hyp Hlist; discriminate. }
  assert (Hl4 : existsb perRequest l4 = false).
  { unfold ListPullRequests in Hlist. unfold_run.
    repeat break_match_hyp Hlist; inversion Hlist; subst;
      rewrite existsb_app, Hl3; reflexivity. }
  destruct e as [e |].
  { left. eexists. split; [reflexivity |].
    rewrite existsb_app, Hl4. reflexivity. }
  destruct pullRequests as [| pr rest].
  { left. eexists. split; [reflexivity |].
    rewrite !existsb_app, Hl4. reflexivity. }
  right. exists defaultBranch, (pr :: rest), l4.
  split; [| split; [exact Hl4 |]].
  - exists gitPath, l2, l3. subst l1.
    repeat split; try assumption; discriminate.
  - cbn [List.length Nat.eqb]. unfold fetchedLines.
    rewrite <- app_assoc. reflexivity.
Qed.
(** ** Printing and parsing numbers *)

Lemma decimalFrom_append a :
  forall b n, strconv.decimalFrom n (a ++ b)
              = strconv.decimalFrom (strconv.decimalFrom n a) b.
Proof.
  induction a as [| c a IH]; intros b n; simpl; [reflexivity | apply IH].
Qed.

Lemma allBytes_append p a b :
  strings.allBytes p (a ++ b) = strings.allBytes p a && strings.allBytes p b.
Proof.
  induction a as [| c a IH]; simpl; [reflexivity |].
  now rewrite IH, andb_assoc.
Qed.

Lemma digit_byte d :
  0 <= d <= 9 ->
  strings.isDigit (ascii_of_N (Z.to_N (48 + d))) = true /\
  strings.byte (ascii_of_N (Z.to_N (48 + d))) - 48 = d.
Proof.
  intros Hd.
  assert (Hcases : d = 0 \/ d = 1 \/ d = 2 \/ d = 3 \/ d = 4 \/ d = 5 \/ d = 6
                   \/ d = 7 \/ d = 8 \/ d = 9) by lia.
  repeat (destruct Hcases as [-> | Hcases]; [split; reflexivity |]).
  subst. split; reflexivity.
Qed.

(** The digits [digitsOfPos] writes in front of [acc] denote [n]. *)
Lemma digitsOfPos_digits fuel :
  forall n acc,
    0 <= n < 10 ^ Z.of_nat (S fuel) ->
    exists ds,
      strconv.digitsOfPos (S fuel) n acc = ds ++ acc /\
      ds <> EmptyString /\
      strings.allDigits ds = true /\
      forall m, strconv.decimalFrom m ds
                = m * 10 ^ Z.of_nat (String.length ds) + n.
Proof.
  induction fuel as [| fuel IH]; intros n acc Hn;
    cbn [strconv.digitsOfPos];
    pose proof (Z.mod_pos_bound n 10 ltac:(lia)) as Hmod;
    destruct (digit_byte (n mod 10) ltac:(lia)) as [Hdig Hval];
    destruct (Z.ltb_spec n 10) as [Hsmall | Hbig].
  1, 3: exists (String (ascii_of_N (Z.to_N (48 + n mod 10))) EmptyString);
    repeat split; try discriminate;
    [ unfold strings.allDigits; cbn [strings.allBytes]; now rewrite Hdig
    | intros m; cbn [strconv.decimalFrom String.length]; rewrite Hval;
      rewrite Z.mod_small by lia; change (10 ^ Z.of_nat 1) with 10; lia ].
  - change (10 ^ Z.of_nat 1) with 10 in Hn. lia.
  - assert (Hdiv : 0 <= n / 10 < 10 ^ Z.of_nat (S fuel)).
    { rewrite (Nat2Z.inj_succ (S fuel)), Z.pow_succ_r in Hn by lia.
      split; [apply Z.div_pos; lia |].
      apply Z.div_lt_upper_bound; lia. }
    destruct (IH (n / 10)
                 (String (ascii_of_N (Z.to_N (48 + n mod 10))) acc) Hdiv)
      as (ds & E & Hne & Hall & Hdec).
    cbn [strconv.digitsOfPos] in E. rewrite E.
    exists (ds ++ String (ascii_of_N (Z.to_N (48 + n mod 10))) EmptyString).
    repeat split.
    + now rewrite append_assoc.
    + destruct ds; [congruence | discriminate].
    + unfold strings.allDigits in *. rewrite allBytes_append, Hall.
      cbn [strings.allBytes andb]. now rewrite Hdig.
    + intros m. rewrite decimalFrom_append, Hdec.
      cbn [strconv.decimalFrom]. rewrite Hval.
      rewrite length_append. cbn [String.length].
      rewrite Nat2Z.inj_add, Z.pow_add_r by lia.
      change (10 ^ Z.of_nat 1) with 10.
      pose proof (Z.div_mod n 10 ltac:(lia)). lia.
Qed.

Lemma Itoa_nonnegative i :
  0 <= i <= strconv.MaxInt ->
  strconv.Itoa i <> EmptyString /\
  strings.allDigits (strconv.Itoa i) = true /\
  strconv.decimal (strconv.Itoa i) = i.
Proof.
  intros Hi. unfold strconv.Itoa.
  destruct (Z.ltb_spec i 0); [lia |].
  destruct (digitsOfPos_digits 19 i EmptyString) as (ds & E & Hne & Hall & Hdec).
  { unfold strconv.MaxInt in Hi. change (2 ^ 63 - 1) with 9223372036854775807 in Hi.
    change (10 ^ Z.of_nat 20) with 100000000000000000000. lia. }
    change (strconv.digitsOfPos 20) with (strconv.digitsOfPos (S 19)).
  rewrite E, append_empty_r.
  repeat split; try assumption.
  unfold strconv.decimal. rewrite Hdec. lia.
Qed.

Lemma Atoi_Itoa i :
  - strconv.MaxInt - 1 <= i <= strconv.MaxInt ->
  strconv.Atoi (strconv.Itoa i) = (i, None).
Proof.
  intros Hi.
  destruct (Z_lt_le_dec i 0) as [Hneg | Hpos].
  - unfold strconv.Itoa.
    destruct (Z.ltb_spec i 0); [| lia].
    destruct (digitsOfPos_digits 19 (- i) EmptyString) as (ds & E & Hne & Hall & Hdec).
    { unfold strconv.MaxInt in Hi. change (2 ^ 63 - 1) with 9223372036854775807 in Hi.
      change (10 ^ Z.of_nat 20) with 100000000000000000000. lia. }
    change (strconv.digitsOfPos 20) with (strconv.digitsOfPos (S 19)).
    rewrite E, append_empty_r.
    unfold strconv.Atoi, strconv.ParseInt.
    change (Ascii.eqb "-" "+") with false.
    change (Ascii.eqb "-" "-") with true.
    cbn [orb negb andb].
    unfold strconv.ParseUint.
    destruct ds as [| c ds]; [congruence |].
    rewrite (parseUintLoop_digits (String c ds) Hall 0)
      by (unfold strconv.maxUint64; simpl; lia).
    specialize (Hdec 0). rewrite Hdec. rewrite Z.mul_0_l, Z.add_0_l.
    unfold strconv.maxUint64, strconv.MaxInt, strconv.IntSize in *.
    change (2 ^ (64 - 1)) with 9223372036854775808.
    change (2 ^ 63) with 9223372036854775808 in Hi.
    change (2 ^ 64) with 18446744073709551616.
    destruct (Z.leb_spec (- i) (18446744073709551616 - 1)); [| lia].
    destruct (Z.ltb_spec 9223372036854775808 (- i)); [lia |].
    rewrite Z.opp_involutive. reflexivity.
  - destruct (Itoa_nonnegative i ltac:(lia)) as (Hne & Hall & Hdec).
    rewrite (Atoi_digits _ Hne Hall), Hdec.
    destruct (Z.leb_spec i strconv.MaxInt); [reflexivity | lia].
Qed.

(** X8: printing an [int] with [strconv.Itoa] and reading it back with
    [strconv.Atoi] gives the same number and no error; so the lookups of
    two different request numbers are two different commands. *)
Theorem lookup_names_its_reference :
  forall n m,
    - strconv.MaxInt - 1 <= n <= strconv.MaxInt ->
    - strconv.MaxInt - 1 <= m <= strconv.MaxInt ->
    strconv.Atoi (strconv.Itoa n) = (n, None) /\
    (lookupOf n = lookupOf m -> n = m).
Proof.
  intros n m Hn Hm. split; [now apply Atoi_Itoa |].
  unfold lookupOf. intros H. inversion H as [E].
  pose proof (Atoi_Itoa n Hn) as En. pose proof (Atoi_Itoa m Hm) as Em.
  rewrite E in En. congruence.
Qed.

Lemma lookup_names_its_reference_witness :
  strconv.Atoi (strconv.Itoa (-9223372036854775808))
  = (-9223372036854775808, None) /\
  (lookupOf (-9223372036854775808) = lookupOf 123 -> -9223372036854775808 = 123).
Proof.
  apply (lookup_names_its_reference (-9223372036854775808) 123);
    vm_compute; split; discriminate.
Defined.
(** ** What a match needs *)

Section Needs.

Import regexp.

Lemma hasByte_append p a b :
  strings.hasByte p (a ++ b) = strings.hasByte p a || strings.hasByte p b.
Proof.
  induction a as [| c a IH]; simpl; [reflexivity |].
  now rewrite IH, orb_assoc.
Qed.

(** A successful attempt handed its continuation a suffix of the input. *)
Lemma exec_suffix r :
  forall s cap k res,
    exec r s cap k = Some res ->
    exists consumed s1 c1, s = consumed ++ s1 /\ k s1 c1 = Some res.
Proof.
  induction r as [| p | r1 IH1 r2 IH2 | r1 IH1 r2 IH2 | r IH | p | r IH];
    intros s cap k res H; simpl in H.
  - exists EmptyString, s, cap. auto.
  - destruct s as [| c s]; [discriminate |].
    destruct (p c); [| discriminate].
    exists (String c EmptyString), s, cap. auto.
  - apply IH1 in H. destruct H as (a & s1 & c1 & -> & H).
    apply IH2 in H. destruct H as (b & s2 & c2 & -> & H).
    exists (a ++ b), s2, c2. rewrite append_assoc. auto.
  - destruct (exec r1 s cap k) as [x |] eqn:E.
    + inversion H; subst x. eapply IH1; eauto.
    + eapply IH2; eauto.
  - destruct (exec r s cap k) as [x |] eqn:E.
    + inversion H; subst x. eapply IH; eauto.
    + exists EmptyString, s, cap. auto.
  - destruct s as [| c s]; [discriminate |].
    destruct (p c); [| discriminate].
    apply star_sound in H. destruct H as (run & rest & -> & _ & H).
    exists (String c run), rest, cap. auto.
  - apply IH in H. destruct H as (a & s1 & c1 & -> & H). eauto.
Qed.

Lemma exec_EmptyMatch s cap k : exec EmptyMatch s cap k = k s cap.
Proof. reflexivity. Qed.

Lemma exec_Class_inv p s cap k res :
  exec (Class p) s cap k = Some res -> strings.hasByte p s = true.
Proof.
  destruct s as [| c s]; simpl; [discriminate |].
  destruct (p c); [reflexivity | discriminate].
Qed.

(** A match of the pattern at the start of [s] has read a colon and a
    [#]. *)
Lemma matchAt_needs_colon_and_hash s m :
  matchAt dependOnRegexp s = Some m ->
  strings.hasByte (isByte ":"%char) s = true /\
  strings.hasByte (isByte "#"%char) s = true.
Proof.
  unfold matchAt.
  destruct (exec dependOnRegexp s None accept) as [res |] eqn:H; [| discriminate].
  intros _.
  rewrite dependOnRegexp_parts, exec_Concat in H.
  apply exec_suffix in H. destruct H as (a1 & s1 & c1 & -> & H). cbv beta in H.
  rewrite exec_Concat in H.
  apply exec_suffix in H. destruct H as (a2 & s2 & c2 & -> & H). cbv beta in H.
  unfold afterKeyword in H. rewrite exec_Concat in H.
  apply exec_suffix in H. destruct H as (a3 & s3 & c3 & -> & H). cbv beta in H.
  rewrite exec_Concat in H.
  change (foldString "on:")
    with (Concat (foldLiteral "o") (Concat (foldLiteral "n")
            (Concat (Class (foldsTo ":")) EmptyMatch))) in H.
  rewrite exec_Concat in H.
  apply exec_suffix in H. destruct H as (a4 & s4 & c4 & -> & H). cbv beta in H.
  rewrite exec_Concat in H.
  apply exec_suffix in H. destruct H as (a5 & s5 & c5 & -> & H). cbv beta in H.
  rewrite exec_Concat in H.
  pose proof (exec_Class_inv _ _ _ _ _ H) as Hcolon.
  apply exec_suffix in H. destruct H as (a6 & s6 & c6 & E6 & H). cbv beta in H.
  rewrite exec_EmptyMatch in H. cbv beta in H. rewrite exec_Concat in H.
  apply exec_suffix in H. destruct H as (a7 & s7 & c7 & E7 & H). cbv beta in H.
  rewrite exec_Concat in H.
  apply exec_Class_inv in H.
  assert (Hfold : forall x, strings.hasByte (foldsTo ":") x = true ->
                            strings.hasByte (isByte ":"%char) x = true).
  { induction x as [| c x IHx]; simpl; [discriminate |].
    intros Hx. apply orb_true_iff in Hx. apply orb_true_iff.
    destruct Hx as [Hc | Hx]; [left | right; auto].
    revert Hc. all_bytes c; vm_compute; congruence. }
  apply Hfold in Hcolon.
  rewrite !hasByte_append, Hcolon, !orb_true_r.
  split; [reflexivity |].
  rewrite E6, E7. rewrite !hasByte_append, H, !orb_true_r. reflexivity.
Qed.

Lemma findAll_without p s :
  (forall x m, matchAt dependOnRegexp x = Some m -> strings.hasByte p x = true) ->
  strings.hasByte p s = false ->
  forall skip, findAll dependOnRegexp skip s = [].
Proof.
  intros Hneeds. induction s as [| c s IH]; intros Hs skip; [reflexivity |].
  assert (Hrest : strings.hasByte p s = false).
  { simpl in Hs. now apply orb_false_iff in Hs. }
  cbn [findAll]. destruct skip; [| now apply IH].
  destruct (matchAt dependOnRegexp (String c s)) as [m |] eqn:E; [| now apply IH].
  apply Hneeds in E. congruence.
Qed.

End Needs.

(** X9: a body with no colon, or with no [#], declares nothing: extraction
    returns the empty list, whatever else the body says. *)
Theorem no_colon_or_hash_no_reference :
  forall body,
    strings.hasByte (regexp.isByte ":"%char) body = false \/
    strings.hasByte (regexp.isByte "#"%char) body = false ->
    ExtractDependencies body = Ret [].
Proof.
  intros body H.
  unfold ExtractDependencies, regexp.FindAllStringSubmatch.
  destruct H as [H | H].
  - rewrite (findAll_without (regexp.isByte ":"%char) body); [reflexivity | | exact H].
    intros x m Hm. now apply matchAt_needs_colon_and_hash in Hm.
  - rewrite (findAll_without (regexp.isByte "#"%char) body); [reflexivity | | exact H].
    intros x m Hm. now apply matchAt_needs_colon_and_hash in Hm.
Qed.

Lemma no_colon_or_hash_witness :
  ExtractDependencies "Depends on #123, depending on #45 and DEPEND ON #6" = Ret [].
Proof.
  apply no_colon_or_hash_no_reference. left. vm_compute. reflexivity.
Defined.

(** X10: every reference extraction returns is a number between 0 and
    [2^63 - 1], and there is one for each match of the pattern, in the
    order of the matches. *)
Theorem extracted_references_in_range :
  forall body dependOns,
    ExtractDependencies body = Ret dependOns ->
    dependOns
    = map captured (regexp.FindAllStringSubmatch dependOnRegexp body) /\
    Forall (fun n => 0 <= n <= strconv.MaxInt) dependOns.
Proof.
  intros body dependOns H.
  destruct (ExtractDependencies_overflow body) as [Hall E].
  rewrite E in H.
  destruct (find overflows _) as [m |] eqn:Hfind; [discriminate |].
  inversion H; subst; clear H. split; [reflexivity |].
  apply Forall_forall. intros n Hin.
  apply in_map_iff in Hin. destruct Hin as (m & <- & Hm).
  pose proof (find_none _ _ Hfind m Hm) as Hfit.
  rewrite Forall_forall in Hall. destruct (Hall m Hm) as (_ & Hd & _).
  unfold overflows in Hfit. apply Z.ltb_ge in Hfit.
  split; [| exact Hfit].
  unfold captured, strconv.decimal.
  apply (decimalFrom_ge (snd m) Hd 0). lia.
Qed.

Lemma extracted_references_witness :
  [123; 0] = map captured
                 (regexp.FindAllStringSubmatch
                    dependOnRegexp "depends on: #123, depend on: #000") /\
  Forall (fun n => 0 <= n <= strconv.MaxInt) [123; 0].
Proof.
  apply (extracted_references_in_range "depends on: #123, depend on: #000").
  vm_compute. reflexivity.
Defined.
(** ** The conflict indicator *)

Lemma Contains_occursIn s sub :
  sub <> EmptyString ->
  (strings.Contains s sub = true <-> occursIn sub s).
Proof.
  intros Hne. unfold strings.Contains, occursIn.
  destruct (index 0 sub s) as [m |] eqn:E; split; intros H.
  - exists m. eapply index_correct1; eauto.
  - reflexivity.
  - discriminate.
  - destruct H as [offset H]. exfalso.
    eapply (index_correct3 0 offset sub s); eauto. lia.
Qed.

(** X11: a failed rebase on an old parent of at least seven bytes returns
    the conflict error, made of the first seven bytes, exactly when the
    words [could not apply] occur somewhere in what the rebase wrote to its
    diagnostic stream; otherwise it returns the raw error wrapped behind
    that text. *)
Theorem conflict_iff_indicator_occurs :
  forall w targetBase oldParent topicBranch l gitPath e,
    LookPath w l "git" = inl gitPath ->
    err (run w l (rebaseCommand gitPath targetBase oldParent topicBranch)) = Some e ->
    (7 <= String.length oldParent)%nat ->
    let diagnostic :=
      stderr (run w l (rebaseCommand gitPath targetBase oldParent topicBranch)) in
    let returned :=
      fst (RebaseOntoPullRequest w targetBase oldParent topicBranch l) in
    (occursIn conflictIndicator diagnostic ->
     returned
     = Ret (Some (conflictError targetBase (substring 0 7 oldParent) topicBranch))) /\
    (~ occursIn conflictIndicator diagnostic ->
     returned = Ret (Some (Wrapf (diagnostic ++ ": " ++ errorString e) e))).
Proof.
  intros w targetBase oldParent topicBranch l gitPath e Hlook Herr Hlen
         diagnostic returned.
  subst returned.
  rewrite (RebaseOntoPullRequest_failure w _ _ _ l gitPath e Hlook Herr).
  fold diagnostic. cbn [fst].
  apply Nat.leb_le in Hlen. rewrite Hlen.
  pose proof (Contains_occursIn diagnostic conflictIndicator) as Hspec.
  destruct (strings.Contains diagnostic conflictIndicator); split; intros H.
  - reflexivity.
  - exfalso. apply H. apply Hspec; [discriminate | reflexivity].
  - apply Hspec in H; [discriminate | discriminate].
  - reflexivity.
Qed.

Lemma conflict_iff_indicator_witness :
  let w := Script.world (Script.withRebase Script.conflict Script.clean) in
  let diagnostic :=
    stderr (run w [] (rebaseCommand "/usr/bin/git" "origin/main" Script.oid "topic-10")) in
  let returned :=
    fst (RebaseOntoPullRequest w "origin/main" Script.oid "topic-10" []) in
  (occursIn conflictIndicator diagnostic ->
   returned
   = Ret (Some (conflictError "origin/main" (substring 0 7 Script.oid) "topic-10"))) /\
  (~ occursIn conflictIndicator diagnostic ->
   returned
   = Ret (Some (Wrapf (diagnostic ++ ": " ++ errorString (External "exit status 1"))
                      (External "exit status 1")))).
Proof.
  intros w.
  apply (conflict_iff_indicator_occurs
           w "origin/main" Script.oid "topic-10" [] "/usr/bin/git"
           (External "exit status 1")).
  - reflexivity.
  - reflexivity.
  - vm_compute. lia.
Defined.

(** ** [main], end to end *)

Lemma ListPullRequests_decoded w l pullRequests l' :
  ListPullRequests w l = (Ret (pullRequests, None), l') ->
  pullRequests <> [] ->
  exists text, unmarshalPullRequests w text = inl pullRequests.
Proof.
  unfold ListPullRequests. unfold_run.
  intros H Hne.
  repeat break_match_hyp H; inversion H; subst; try congruence.
  eauto.
Qed.

(** X12: [main] starts a process for a request - a lookup, a checkout or a
    rebase - only when its setup went through: [git] found, the status
    query clean, the default branch resolved and fetched and at least one
    request listed, each with a nil error; and then [main] is the loop over
    the listed requests followed by the report. *)
Theorem main_works_on_requests_only_after_setup :
  forall w,
    existsb perRequest (snd (main w [])) = true ->
    exists defaultBranch pullRequests l,
      setUp w defaultBranch pullRequests l /\
      existsb perRequest l = false /\
      main w []
      = bind (processPullRequests w defaultBranch None pullRequests [])
             (report w) (l ++ fetchedLines w pullRequests)%list.
Proof.
  intros w H.
  destruct (main_cases w) as [(l & E & Hl) | Hright]; [| exact Hright].
  rewrite E in H. simpl in H. congruence.
Qed.

Lemma main_works_on_requests_witness :
  let w := Script.world Script.clean in
  exists defaultBranch pullRequests l,
    setUp w defaultBranch pullRequests l /\
    existsb perRequest l = false /\
    main w []
    = bind (processPullRequests w defaultBranch None pullRequests [])
           (report w) (l ++ fetchedLines w pullRequests)%list.
Proof.
  intros w.
  apply (main_works_on_requests_only_after_setup w).
  vm_compute. reflexivity.
Defined.

(** X13: [main] returns, without a panic, in every world where a lookup
    that exits normally leaves its diagnostic stream empty, a merged
    request comes with at least seven bytes of commit id, and no listed
    body holds a reference above [2^63 - 1]. *)
Theorem main_returns :
  forall w,
    quietLookups w -> fullCommitIds w -> listedBodiesFit w ->
    exists l, main w [] = (Ret tt, l).
Proof.
  intros w Hquiet Hfull Hfit.
  destruct (main_cases w)
    as [(l & E & _) | (defaultBranch & pullRequests & l & Hset & _ & E)];
    [eauto |].
  rewrite E. clear E.
  destruct Hset as (gitPath & l2 & l3 & _ & _ & _ & Hlist & Hne).
  destruct (ListPullRequests_decoded w l3 pullRequests l Hlist Hne) as [text Hjson].
  unfold bind.
  destruct (processPullRequests_returns
              w defaultBranch pullRequests Hquiet Hfull (Hfit text _ Hjson)
              [] (l ++ fetchedLines w pullRequests)%list)
    as (processed & l' & E).
  rewrite E.
  apply processPullRequests_outcomes in E.
  destruct E as (fresh & -> & _ & Hall). simpl.
  apply report_returns.
  eapply Forall_impl; [| exact Hall].
  intros p [[_ (d & Hd & _)] | [_ [e He]]] Hnil; congruence.
Qed.

Lemma main_returns_witness :
  exists l, main (Script.world Script.clean) [] = (Ret tt, l).
Proof.
  apply (main_returns (Script.world Script.clean)).
  - unfold quietLookups. intros l number _. reflexivity.
  - unfold fullCommitIds. intros text depended H _.
    vm_compute in H. inversion H; subst. vm_compute. lia.
  - unfold listedBodiesFit. intros text pullRequests H.
    vm_compute in H. inversion H; subst. vm_compute. reflexivity.
Defined.
(** ** The processes of one round, in order *)

Lemma CheckoutToPullRequest_added w number l :
  exists ghPath,
    added l (snd (CheckoutToPullRequest w number l)) = [] \/
    added l (snd (CheckoutToPullRequest w number l))
    = [Exec (checkoutCommand ghPath number)].
Proof.
  unfold CheckoutToPullRequest, checkoutCommand. unfold_run.
  destruct (LookPath w l "gh") as [ghPath | e].
  - exists ghPath. right.
    destruct (err (run w l _)); cbn [snd]; apply added_app.
  - exists EmptyString. left. apply added_refl.
Qed.

Lemma RebaseOntoPullRequest_added w targetBase oldParent topicBranch l :
  exists gitPath,
    let rebase := Exec (rebaseCommand gitPath targetBase oldParent topicBranch) in
    let out := RebaseOntoPullRequest w targetBase oldParent topicBranch l in
    added l (snd out) = [] \/
    added l (snd out) = [rebase] \/
    added l (snd out) = [rebase; Exec (abortCommand gitPath)].
Proof.
  destruct (LookPath w l "git") as [gitPath | e0] eqn:Hl.
  - exists gitPath.
    destruct (err (run w l (rebaseCommand gitPath targetBase oldParent topicBranch)))
      as [e |] eqn:Herr.
    + right. right.
      rewrite (RebaseOntoPullRequest_failure w _ _ _ l gitPath e Hl Herr).
      cbn [snd]. apply added_app.
    + right. left.
      unfold RebaseOntoPullRequest, rebaseCommand in *. unfold_run.
      rewrite Hl, Herr. cbn [snd]. apply added_app.
  - exists EmptyString. left.
    unfold RebaseOntoPullRequest. unfold_run. rewrite Hl.
    cbn [snd]. apply added_refl.
Qed.

(** X14: a round starts at most four processes and always in this order:
    the lookup of the one reference, the checkout of the request itself,
    the rebase of its head branch onto [origin/<default branch>], the abort.
    A later one never runs without the earlier ones. *)
Theorem round_starts_processes_in_order :
  forall w defaultBranch err0 pr l,
    let started := added l (snd (processPullRequest w defaultBranch err0 pr l)) in
    started = [] \/
    exists dependOn,
      started = [lookupOf dependOn] \/
      exists ghPath,
        let checkout := Exec (checkoutCommand ghPath (Number pr)) in
        started = [lookupOf dependOn; checkout] \/
        exists gitPath oldParent,
          let rebase :=
            Exec (rebaseCommand gitPath ("origin/" ++ defaultBranch) oldParent
                                (HeadRefName pr)) in
          started = [lookupOf dependOn; checkout; rebase] \/
          started = [lookupOf dependOn; checkout; rebase;
                     Exec (abortCommand gitPath)].
Proof.
  intros w defaultBranch err0 pr l started.
  assert (E : started
              = added l (snd (processPullRequest w defaultBranch err0 pr l)))
    by reflexivity.
  clearbody started. revert E.
  unfold processPullRequest.
  destruct (ExtractDependencies (Body pr)) as [dependOns | pv];
    [| unfold panic; cbn [snd]; rewrite added_refl; intros ->; left; reflexivity].
  destruct err0 as [e |];
    [unfold panic; cbn [snd]; rewrite added_refl; intros ->; left; reflexivity |].
  destruct dependOns as [| dependOn [| b rest]]; simpl;
    try (unfold ret; cbn [snd]; rewrite added_refl; intros ->; left; reflexivity).
  unfold bind at 1.
  pose proof (GetPullRequest_log w dependOn l) as Hlog.
  destruct (GetPullRequest w dependOn l) as [[[[depended |] [e |]] | pv] l1] eqn:Hget;
    simpl in Hlog; subst l1;
    try (unfold ret, panic; cbn [snd]; rewrite added_app; intros ->;
         right; exists dependOn; left; reflexivity).
  destruct (negb (String.eqb (State depended) "MERGED"));
    [unfold ret; cbn [snd]; rewrite added_app; intros ->;
     right; exists dependOn; left; reflexivity |].
  unfold bind at 1.
  destruct (CheckoutToPullRequest_added w (Number pr) (l ++ [lookupOf dependOn])%list)
    as (ghPath & Hco).
  pose proof (CheckoutToPullRequest_log w (Number pr) (l ++ [lookupOf dependOn])%list)
    as (extra1 & Hlog1 & _).
  destruct (CheckoutToPullRequest w (Number pr) (l ++ [lookupOf dependOn])%list)
    as [[[e |] | pv] l2] eqn:Hcheckout; cbn [snd] in *; subst l2;
    rewrite added_app in Hco.
  - unfold ret. cbn [snd]. rewrite <- app_assoc, added_app. intros ->.
    right. exists dependOn.
    destruct Hco as [-> | ->]; [left; reflexivity |].
    right. exists ghPath. left. reflexivity.
  - apply CheckoutToPullRequest_nil in Hcheckout.
    destruct Hcheckout as (ghPath' & _ & _ & Hl2).
    apply app_inv_head in Hl2. subst extra1. clear Hco.
    unfold bind at 1.
    match goal with
    | |- context [RebaseOntoPullRequest w ?tb ?op ?tp ?l0] =>
        destruct (RebaseOntoPullRequest_added w tb op tp l0) as (gitPath & Hrb);
        pose proof (RebaseOntoPullRequest_log w tb op tp l0) as (extra2 & Hlog2 & _);
        destruct (RebaseOntoPullRequest w tb op tp l0) as [[[e |] | pv] l3]
    end; cbn [snd] in *; subst l3; rewrite added_app in Hrb.
    all: unfold ret; cbn [snd]; rewrite <- !app_assoc, added_app; intros ->.
    all: right; exists dependOn; right; exists ghPath'.
    all: destruct Hrb as [-> | [-> | ->]];
      [ left; reflexivity
      | right; exists gitPath, (MergeCommitOid depended); left; reflexivity
      | right; exists gitPath, (MergeCommitOid depended); right; reflexivity ].
  - cbn [snd]. rewrite <- app_assoc, added_app. intros ->.
    right. exists dependOn.
    destruct Hco as [-> | ->]; [left; reflexivity |].
    right. exists ghPath. left. reflexivity.
Qed.
(** ** Where a run can panic *)

(** X15: [GetPullRequest] returns a nil request together with a nil error
    exactly when the lookup exits normally and has written to its
    diagnostic stream; in every other case one of the two is not nil. *)
Theorem nil_request_nil_error_iff_diagnostic :
  forall w number l,
    fst (GetPullRequest w number l) = Ret (None, None) <->
    err (run w l (viewCommand number)) = None /\
    stderr (run w l (viewCommand number)) <> EmptyString.
Proof.
  intros w number l.
  unfold GetPullRequest, viewCommand. unfold_run.
  destruct (err (run w l _)) as [e |] eqn:Herr; cbn [fst].
  - split; [discriminate | intros [H _]; discriminate].
  - destruct (stderr (run w l _)) as [| c s] eqn:Hdiag;
      cbn [nonEmpty String.length Nat.ltb Nat.leb].
    + destruct (unmarshalPullRequest w _); cbn [fst];
        (split; [discriminate | intros [_ H]; congruence]).
    + cbn [fst]. split; [intros _; split; [reflexivity | discriminate] | reflexivity].
Qed.

(** X16: [RebaseOntoPullRequest] panics exactly when [git] was found, the
    rebase failed, its diagnostic text holds the conflict indicator and the
    old parent has fewer than seven bytes; the panic is the slice bound. *)
Theorem rebase_panics_iff_short_old_parent :
  forall w targetBase oldParent topicBranch l pv,
    fst (RebaseOntoPullRequest w targetBase oldParent topicBranch l) = Panic pv <->
    exists gitPath e,
      LookPath w l "git" = inl gitPath /\
      err (run w l (rebaseCommand gitPath targetBase oldParent topicBranch))
      = Some e /\
      strings.Contains
        (stderr (run w l (rebaseCommand gitPath targetBase oldParent topicBranch)))
        conflictIndicator = true /\
      (String.length oldParent < 7)%nat /\
      pv = PanicSliceBounds 7 (String.length oldParent).
Proof.
  intros w targetBase oldParent topicBranch l pv.
  destruct (LookPath w l "git") as [gitPath | e0] eqn:Hl.
  - destruct (err (run w l (rebaseCommand gitPath targetBase oldParent topicBranch)))
      as [e |] eqn:Herr.
    + rewrite (RebaseOntoPullRequest_failure w _ _ _ l gitPath e Hl Herr).
      cbn [fst].
      destruct (strings.Contains _ conflictIndicator) eqn:Hc.
      * destruct (Nat.leb_spec 7 (String.length oldParent)) as [Hlen | Hlen].
        -- split; [discriminate |].
           intros (g & e' & _ & _ & _ & Hshort & _). lia.
        -- split.
           ++ intros H. inversion H; subst. exists gitPath, e.
              repeat split; auto.
           ++ intros (g & e' & _ & _ & _ & _ & ->). reflexivity.
      * split; [discriminate |].
        intros (g & e' & Hg & _ & Hc' & _). inversion Hg; subst. congruence.
    + assert (E : RebaseOntoPullRequest w targetBase oldParent topicBranch l
                  = (Ret None,
                     (l ++ [Exec (rebaseCommand gitPath targetBase oldParent
                                                topicBranch)])%list)).
      { unfold RebaseOntoPullRequest, rebaseCommand in *. unfold_run.
        rewrite Hl, Herr. reflexivity. }
      rewrite E. cbn [fst]. split; [discriminate |].
      intros (g & e' & Hg & He & _). inversion Hg; subst. congruence.
  - assert (E : RebaseOntoPullRequest w targetBase oldParent topicBranch l
                = (Ret (Some e0), l)).
    { unfold RebaseOntoPullRequest. unfold_run. rewrite Hl. reflexivity. }
    rewrite E. cbn [fst]. split; [discriminate |].
    intros (g & e' & Hg & _). discriminate.
Qed.

(** X17: a round panics in three situations and no other: the extraction
    panics; or the one lookup returns a nil request with a nil error, which
    line 158 dereferences; or the dependency is merged, the checkout
    returned a nil error and the rebase panics. *)
Theorem round_panics_iff :
  forall w defaultBranch pr l pv,
    fst (processPullRequest w defaultBranch None pr l) = Panic pv <->
    ExtractDependencies (Body pr) = Panic pv \/
    exists dependOn,
      ExtractDependencies (Body pr) = Ret [dependOn] /\
      ((fst (GetPullRequest w dependOn l) = Ret (None, None) /\
        pv = PanicNilDereference) \/
       exists depended l1 l2,
         GetPullRequest w dependOn l = (Ret (Some depended, None), l1) /\
         State depended = "MERGED" /\
         CheckoutToPullRequest w (Number pr) l1 = (Ret None, l2) /\
         fst (RebaseOntoPullRequest w ("origin/" ++ defaultBranch)
                                    (MergeCommitOid depended) (HeadRefName pr) l2)
         = Panic pv).
Proof.
  intros w defaultBranch pr l pv.
  unfold processPullRequest.
  destruct (ExtractDependencies (Body pr)) as [dependOns | pv0].
  2:{ unfold panic. cbn [fst]. split.
      - intros H. inversion H. now left.
      - intros [H | (n & H & _)]; [inversion H; reflexivity | discriminate]. }
  destruct dependOns as [| dependOn [| b rest]]; simpl.
  1, 3: unfold ret; cbn [fst]; split;
    [discriminate | intros [H | (n & H & _)]; discriminate].
  unfold bind at 1.
  destruct (GetPullRequest w dependOn l) as [[[found e] | pv0] l1] eqn:Hget.
  2:{ exfalso. unfold GetPullRequest in Hget. unfold_run.
      repeat break_match_hyp Hget; discriminate. }
  destruct e as [e |].
  { unfold ret. cbn [fst]. split; [discriminate |].
    intros [H | (n & Hn & [[H _] | (d & a & b & H & _)])];
      try discriminate; inversion Hn; subst; rewrite Hget in H; discriminate. }
  destruct found as [depended |].
  2:{ unfold panic. cbn [fst]. split.
      - intros H. inversion H. right. exists dependOn.
        split; [reflexivity |]. left. rewrite Hget. auto.
      - intros [H | (n & Hn & [[_ ->] | (d & a & b & H & _)])];
          [discriminate | reflexivity |].
        inversion Hn; subst. rewrite Hget in H. discriminate. }
  destruct (String.eqb (State depended) "MERGED") eqn:Hstate; cbn [negb].
  2:{ unfold ret. cbn [fst]. split; [discriminate |].
      intros [H | (n & Hn & [[H _] | (d & a & b & H & Hs & _)])];
        try discriminate; inversion Hn; subst; rewrite Hget in H;
        try discriminate.
      inversion H; subst. apply String.eqb_neq in Hstate. congruence. }
  apply String.eqb_eq in Hstate.
  unfold bind at 1.
  destruct (CheckoutToPullRequest w (Number pr) l1) as [[[e |] | pv0] l2] eqn:Hco.
  - unfold ret. cbn [fst]. split; [discriminate |].
    intros [H | (n & Hn & [[H _] | (d & a & b & H & _ & Hc & _)])];
      try discriminate; inversion Hn; subst; rewrite Hget in H;
      try discriminate.
    inversion H; subst. rewrite Hco in Hc. discriminate.
  - unfold bind at 1.
    match goal with
    | |- context [RebaseOntoPullRequest w ?tb ?op ?tp ?l0] =>
        change tb with ("origin/" ++ defaultBranch);
        destruct (RebaseOntoPullRequest w ("origin/" ++ defaultBranch) op tp l0)
          as [[[e |] | pv0] l3] eqn:Hrb
    end.
    1, 2: unfold ret; cbn [fst]; split; [discriminate |];
      intros [H | (n & Hn & [[H _] | (d & a & b & H & _ & Hc & Hr)])];
      try discriminate; inversion Hn; subst; rewrite Hget in H;
      try discriminate;
      inversion H; subst; rewrite Hco in Hc; inversion Hc; subst;
      rewrite Hrb in Hr; discriminate.
    cbn [fst]. split.
    + intros H. inversion H; subst. right. exists dependOn.
      split; [reflexivity |]. right. exists depended, l1, l2.
      rewrite Hrb. auto.
    + intros [H | (n & Hn & [[H _] | (d & a & b & H & _ & Hc & Hr)])];
        try discriminate; inversion Hn; subst; rewrite Hget in H;
        try discriminate.
      inversion H; subst. rewrite Hco in Hc. inversion Hc; subst.
      rewrite Hrb in Hr. cbn [fst] in Hr. inversion Hr. reflexivity.
  - exfalso. destruct (CheckoutToPullRequest_returns w (Number pr) l1)
      as (e & l' & E). congruence.
Qed.

(** ** The outcome list only grows *)

(** X18: the loop only appends: the outcomes it was given stay in front,
    unchanged, and it adds exactly one outcome for each request it is
    given, in order. *)
Theorem loop_only_appends :
  forall w defaultBranch err0 pullRequests acc l processed l',
    processPullRequests w defaultBranch err0 pullRequests acc l
    = (Ret processed, l') ->
    firstn (List.length acc) processed = acc /\
    map Embedded (skipn (List.length acc) processed) = pullRequests.
Proof.
  intros w defaultBranch err0 pullRequests acc l processed l' H.
  apply processPullRequests_outcomes in H.
  destruct H as (fresh & -> & Hmap & _).
  split.
  - rewrite firstn_app, Nat.sub_diag, firstn_all. simpl. apply app_nil_r.
  - rewrite skipn_app, Nat.sub_diag, skipn_all. simpl. exact Hmap.
Qed.

Lemma loop_only_appends_witness :
  let w := Script.world Script.clean in
  let earlier := [failed (Script.request 9 "Earlier" "OPEN" EmptyString) []
                         ErrNoDependOn] in
  let pullRequests := [Script.request 11 "Fixes a typo" "OPEN" EmptyString] in
  let processed :=
    (earlier ++ [failed (Script.request 11 "Fixes a typo" "OPEN" EmptyString) []
                        ErrNoDependOn])%list in
  firstn (List.length earlier) processed = earlier /\
  map Embedded (skipn (List.length earlier) processed) = pullRequests.
Proof.
  intros w earlier pullRequests processed.
  apply (loop_only_appends w "main" None pullRequests earlier [] processed []).
  vm_compute. reflexivity.
Defined.
